(** * InteractiveBackend: the save-config handler and its CSV file

    A shallow embedding of [InteractiveBackend.py], the Flask script that
    serves a static front end and persists a posted JSON array of
    (panel, parameter, value) records as [SwapDatas/InputDatas.csv].

    The handler [save_config], the statements at module level and the main
    block are translated line by line; the routes [index] and
    [send_components], which only hand a path to Flask's
    [send_from_directory], are left out.  What the script calls in the
    Python library is modelled here as CPython 3.11 (Unicode 14.0) with
    Flask 3 on a POSIX system behaves: [os.path.join], [os.path.exists],
    [os.makedirs], [open] in mode 'w' with the [utf-8-sig] codec and
    [newline=''], [csv.writer] and [csv.reader] with the default [excel]
    dialect, [str] and [repr] on deserialised JSON values, and the
    exceptions these raise.

    A Python [str] is represented by the bytes of its UTF-8 encoding, and a
    lone surrogate in it (which JSON can carry, and which has no UTF-8
    encoding) by the three bytes ED A0..BF 80..BF that would encode its code
    point.  Every character the CSV dialect treats specially is ASCII, and
    no byte of a multi-byte sequence is ASCII, so quoting on bytes and
    quoting on characters agree. *)

From Stdlib Require Import String Ascii List ZArith NArith Bool Lia.
From Stdlib Require Import DecimalString DecimalZ DecimalPos Permutation.
Import ListNotations.
Open Scope string_scope.
Set Warnings "-register-all".

(** ** Characters and text *)

Definition TAB : ascii := ascii_of_nat 9.
Definition LF : ascii := ascii_of_nat 10.
Definition CR : ascii := ascii_of_nat 13.
Definition DQUOTE : ascii := ascii_of_nat 34.
Definition SQUOTE : ascii := ascii_of_nat 39.
Definition COMMA : ascii := ascii_of_nat 44.
Definition BACKSLASH : ascii := ascii_of_nat 92.

Definition char (c : ascii) : string := String c EmptyString.

(** [any p s]: some byte of [s] satisfies [p]. *)
Fixpoint any (p : ascii -> bool) (s : string) : bool :=
  match s with
  | EmptyString => false
  | String c r => p c || any p r
  end.

Fixpoint concat_all (l : list string) : string :=
  match l with
  | [] => EmptyString
  | x :: r => x ++ concat_all r
  end.

(** The first [n] bytes. *)
Fixpoint take (n : nat) (s : string) : string :=
  match n, s with
  | S k, String c r => String c (take k r)
  | _, _ => EmptyString
  end.

(** A byte that continues a multi-byte character. *)
Definition is_continuation (c : ascii) : bool :=
  let n := N_of_ascii c in ((128 <=? n) && (n <? 192))%N.

Definition starts_with_continuation (s : string) : bool :=
  match s with
  | String d _ => is_continuation d
  | EmptyString => false
  end.

(** The characters of a text, each with all the bytes of its encoding. *)
Fixpoint py_chars (s : string) : list string :=
  match s with
  | EmptyString => []
  | String c r =>
      match py_chars r with
      | x :: l =>
          if starts_with_continuation r then String c x :: l
          else char c :: x :: l
      | [] => [char c]
      end
  end.

(** [len(s)]: the number of characters. *)
Fixpoint char_count (s : string) : N :=
  match s with
  | EmptyString => 0
  | String c r => ((if is_continuation c then 0 else 1) + char_count r)%N
  end.

(** The code point of one character, from its bytes. *)
Definition lead_bits (b : N) : N :=
  (if b <? 128 then b
   else if b <? 224 then b mod 32
   else if b <? 240 then b mod 16
   else b mod 8)%N.

Fixpoint tail_bits (acc : N) (s : string) : N :=
  match s with
  | EmptyString => acc
  | String c r => tail_bits (acc * 64 + N_of_ascii c mod 64)%N r
  end.

Definition code_point (ch : string) : N :=
  match ch with
  | EmptyString => 0%N
  | String c r => tail_bits (lead_bits (N_of_ascii c)) r
  end.

Definition hex_digit (n : N) : ascii :=
  nth (N.to_nat n) (list_ascii_of_string "0123456789abcdef") "0"%char.

(** [n] in [width] lower-case hexadecimal digits. *)
Fixpoint hex_of (width : nat) (n : N) : string :=
  match width with
  | O => EmptyString
  | S k => hex_of k (n / 16)%N ++ char (hex_digit (n mod 16)%N)
  end.

(** ** Lone surrogates

    A surrogate is a character whose bytes start with ED and a byte from A0
    up. *)

Definition surrogate_here (s : string) : bool :=
  match s with
  | String b1 (String b2 _) =>
      ((N_of_ascii b1 =? 237) && (160 <=? N_of_ascii b2))%N && is_continuation b2
  | _ => false
  end.

Fixpoint has_surrogate (s : string) : bool :=
  match s with
  | EmptyString => false
  | String _ r => surrogate_here s || has_surrogate r
  end.

(** The number of surrogates in a row at the head of a text. *)
Fixpoint surrogate_run (s : string) : N :=
  match s with
  | String b1 (String b2 (String b3 r)) =>
      if surrogate_here s then (1 + surrogate_run r)%N else 0%N
  | _ => if surrogate_here s then 1%N else 0%N
  end.

(** ** Deserialised JSON, as [json.loads] builds it

    An object becomes a [dict], whose keys are distinct and kept in
    insertion order; a number without fraction or exponent becomes an
    [int], any other number a [float].  The decoder refuses an integer
    of more than 4300 digits (a [ValueError], so that the body counts among
    the undecodable ones), hence [str] prints every [int] it builds.  The
    model does not compute with floats: a float is carried as the text
    [repr] prints for it. *)

Inductive json : Type :=
| JNull
| JBool (b : bool)
| JInt (n : Z)
| JFloat (repr : string)
| JStr (s : string)
| JArr (items : list json)
| JObj (members : list (string * json)).

(** ** Python's [str] and [repr] on these values *)

Definition str_int (n : Z) : string := NilZero.string_of_int (Z.to_int n).

(** The code points from U+0080 up that [str.isprintable] refuses, in
    Unicode 14.0: the categories Cc, Cf, Cs, Co, Cn, Zl, Zp and Zs, as
    closed ranges. *)
Definition NONPRINTABLE : list (N * N) :=
  [(128, 160); (173, 173); (888, 889); (896, 899); (907, 907); (909, 909);
   (930, 930); (1328, 1328); (1367, 1368); (1419, 1420); (1424, 1424);
   (1480, 1487); (1515, 1518); (1525, 1541); (1564, 1564); (1757, 1757);
   (1806, 1807); (1867, 1868); (1970, 1983); (2043, 2044); (2094, 2095);
   (2111, 2111); (2140, 2141); (2143, 2143); (2155, 2159); (2191, 2199);
   (2274, 2274); (2436, 2436); (2445, 2446); (2449, 2450); (2473, 2473);
   (2481, 2481); (2483, 2485); (2490, 2491); (2501, 2502); (2505, 2506);
   (2511, 2518); (2520, 2523); (2526, 2526); (2532, 2533); (2559, 2560);
   (2564, 2564); (2571, 2574); (2577, 2578); (2601, 2601); (2609, 2609);
   (2612, 2612); (2615, 2615); (2618, 2619); (2621, 2621); (2627, 2630);
   (2633, 2634); (2638, 2640); (2642, 2648); (2653, 2653); (2655, 2661);
   (2679, 2688); (2692, 2692); (2702, 2702); (2706, 2706); (2729, 2729);
   (2737, 2737); (2740, 2740); (2746, 2747); (2758, 2758); (2762, 2762);
   (2766, 2767); (2769, 2783); (2788, 2789); (2802, 2808); (2816, 2816);
   (2820, 2820); (2829, 2830); (2833, 2834); (2857, 2857); (2865, 2865);
   (2868, 2868); (2874, 2875); (2885, 2886); (2889, 2890); (2894, 2900);
   (2904, 2907); (2910, 2910); (2916, 2917); (2936, 2945); (2948, 2948);
   (2955, 2957); (2961, 2961); (2966, 2968); (2971, 2971); (2973, 2973);
   (2976, 2978); (2981, 2983); (2987, 2989); (3002, 3005); (3011, 3013);
   (3017, 3017); (3022, 3023); (3025, 3030); (3032, 3045); (3067, 3071);
   (3085, 3085); (3089, 3089); (3113, 3113); (3130, 3131); (3141, 3141);
   (3145, 3145); (3150, 3156); (3159, 3159); (3163, 3164); (3166, 3167);
   (3172, 3173); (3184, 3190); (3213, 3213); (3217, 3217); (3241, 3241);
   (3252, 3252); (3258, 3259); (3269, 3269); (3273, 3273); (3278, 3284);
   (3287, 3292); (3295, 3295); (3300, 3301); (3312, 3312); (3315, 3327);
   (3341, 3341); (3345, 3345); (3397, 3397); (3401, 3401); (3408, 3411);
   (3428, 3429); (3456, 3456); (3460, 3460); (3479, 3481); (3506, 3506);
   (3516, 3516); (3518, 3519); (3527, 3529); (3531, 3534); (3541, 3541);
   (3543, 3543); (3552, 3557); (3568, 3569); (3573, 3584); (3643, 3646);
   (3676, 3712); (3715, 3715); (3717, 3717); (3723, 3723); (3748, 3748);
   (3750, 3750); (3774, 3775); (3781, 3781); (3783, 3783); (3790, 3791);
   (3802, 3803); (3808, 3839); (3912, 3912); (3949, 3952); (3992, 3992);
   (4029, 4029); (4045, 4045); (4059, 4095); (4294, 4294); (4296, 4300);
   (4302, 4303); (4681, 4681); (4686, 4687); (4695, 4695); (4697, 4697);
   (4702, 4703); (4745, 4745); (4750, 4751); (4785, 4785); (4790, 4791);
   (4799, 4799); (4801, 4801); (4806, 4807); (4823, 4823); (4881, 4881);
   (4886, 4887); (4955, 4956); (4989, 4991); (5018, 5023); (5110, 5111);
   (5118, 5119); (5760, 5760); (5789, 5791); (5881, 5887); (5910, 5918);
   (5943, 5951); (5972, 5983); (5997, 5997); (6001, 6001); (6004, 6015);
   (6110, 6111); (6122, 6127); (6138, 6143); (6158, 6158); (6170, 6175);
   (6265, 6271); (6315, 6319); (6390, 6399); (6431, 6431); (6444, 6447);
   (6460, 6463); (6465, 6467); (6510, 6511); (6517, 6527); (6572, 6575);
   (6602, 6607); (6619, 6621); (6684, 6685); (6751, 6751); (6781, 6782);
   (6794, 6799); (6810, 6815); (6830, 6831); (6863, 6911); (6989, 6991);
   (7039, 7039); (7156, 7163); (7224, 7226); (7242, 7244); (7305, 7311);
   (7355, 7356); (7368, 7375); (7419, 7423); (7958, 7959); (7966, 7967);
   (8006, 8007); (8014, 8015); (8024, 8024); (8026, 8026); (8028, 8028);
   (8030, 8030); (8062, 8063); (8117, 8117); (8133, 8133); (8148, 8149);
   (8156, 8156); (8176, 8177); (8181, 8181); (8191, 8207); (8232, 8239);
   (8287, 8303); (8306, 8307); (8335, 8335); (8349, 8351); (8385, 8399);
   (8433, 8447); (8588, 8591); (9255, 9279); (9291, 9311); (11124, 11125);
   (11158, 11158); (11508, 11512); (11558, 11558); (11560, 11564);
   (11566, 11567); (11624, 11630); (11633, 11646); (11671, 11679);
   (11687, 11687); (11695, 11695); (11703, 11703); (11711, 11711);
   (11719, 11719); (11727, 11727); (11735, 11735); (11743, 11743);
   (11870, 11903); (11930, 11930); (12020, 12031); (12246, 12271);
   (12284, 12288); (12352, 12352); (12439, 12440); (12544, 12548);
   (12592, 12592); (12687, 12687); (12772, 12783); (12831, 12831);
   (42125, 42127); (42183, 42191); (42540, 42559); (42744, 42751);
   (42955, 42959); (42962, 42962); (42964, 42964); (42970, 42993);
   (43053, 43055); (43066, 43071); (43128, 43135); (43206, 43213);
   (43226, 43231); (43348, 43358); (43389, 43391); (43470, 43470);
   (43482, 43485); (43519, 43519); (43575, 43583); (43598, 43599);
   (43610, 43611); (43715, 43738); (43767, 43776); (43783, 43784);
   (43791, 43792); (43799, 43807); (43815, 43815); (43823, 43823);
   (43884, 43887); (44014, 44015); (44026, 44031); (55204, 55215);
   (55239, 55242); (55292, 63743); (64110, 64111); (64218, 64255);
   (64263, 64274); (64280, 64284); (64311, 64311); (64317, 64317);
   (64319, 64319); (64322, 64322); (64325, 64325); (64451, 64466);
   (64912, 64913); (64968, 64974); (64976, 65007); (65050, 65055);
   (65107, 65107); (65127, 65127); (65132, 65135); (65141, 65141);
   (65277, 65280); (65471, 65473); (65480, 65481); (65488, 65489);
   (65496, 65497); (65501, 65503); (65511, 65511); (65519, 65531);
   (65534, 65535); (65548, 65548); (65575, 65575); (65595, 65595);
   (65598, 65598); (65614, 65615); (65630, 65663); (65787, 65791);
   (65795, 65798); (65844, 65846); (65935, 65935); (65949, 65951);
   (65953, 65999); (66046, 66175); (66205, 66207); (66257, 66271);
   (66300, 66303); (66340, 66348); (66379, 66383); (66427, 66431);
   (66462, 66462); (66500, 66503); (66518, 66559); (66718, 66719);
   (66730, 66735); (66772, 66775); (66812, 66815); (66856, 66863);
   (66916, 66926); (66939, 66939); (66955, 66955); (66963, 66963);
   (66966, 66966); (66978, 66978); (66994, 66994); (67002, 67002);
   (67005, 67071); (67383, 67391); (67414, 67423); (67432, 67455);
   (67462, 67462); (67505, 67505); (67515, 67583); (67590, 67591);
   (67593, 67593); (67638, 67638); (67641, 67643); (67645, 67646);
   (67670, 67670); (67743, 67750); (67760, 67807); (67827, 67827);
   (67830, 67834); (67868, 67870); (67898, 67902); (67904, 67967);
   (68024, 68027); (68048, 68049); (68100, 68100); (68103, 68107);
   (68116, 68116); (68120, 68120); (68150, 68151); (68155, 68158);
   (68169, 68175); (68185, 68191); (68256, 68287); (68327, 68330);
   (68343, 68351); (68406, 68408); (68438, 68439); (68467, 68471);
   (68498, 68504); (68509, 68520); (68528, 68607); (68681, 68735);
   (68787, 68799); (68851, 68857); (68904, 68911); (68922, 69215);
   (69247, 69247); (69290, 69290); (69294, 69295); (69298, 69375);
   (69416, 69423); (69466, 69487); (69514, 69551); (69580, 69599);
   (69623, 69631); (69710, 69713); (69750, 69758); (69821, 69821);
   (69827, 69839); (69865, 69871); (69882, 69887); (69941, 69941);
   (69960, 69967); (70007, 70015); (70112, 70112); (70133, 70143);
   (70162, 70162); (70207, 70271); (70279, 70279); (70281, 70281);
   (70286, 70286); (70302, 70302); (70314, 70319); (70379, 70383);
   (70394, 70399); (70404, 70404); (70413, 70414); (70417, 70418);
   (70441, 70441); (70449, 70449); (70452, 70452); (70458, 70458);
   (70469, 70470); (70473, 70474); (70478, 70479); (70481, 70486);
   (70488, 70492); (70500, 70501); (70509, 70511); (70517, 70655);
   (70748, 70748); (70754, 70783); (70856, 70863); (70874, 71039);
   (71094, 71095); (71134, 71167); (71237, 71247); (71258, 71263);
   (71277, 71295); (71354, 71359); (71370, 71423); (71451, 71452);
   (71468, 71471); (71495, 71679); (71740, 71839); (71923, 71934);
   (71943, 71944); (71946, 71947); (71956, 71956); (71959, 71959);
   (71990, 71990); (71993, 71994); (72007, 72015); (72026, 72095);
   (72104, 72105); (72152, 72153); (72165, 72191); (72264, 72271);
   (72355, 72367); (72441, 72703); (72713, 72713); (72759, 72759);
   (72774, 72783); (72813, 72815); (72848, 72849); (72872, 72872);
   (72887, 72959); (72967, 72967); (72970, 72970); (73015, 73017);
   (73019, 73019); (73022, 73022); (73032, 73039); (73050, 73055);
   (73062, 73062); (73065, 73065); (73103, 73103); (73106, 73106);
   (73113, 73119); (73130, 73439); (73465, 73647); (73649, 73663);
   (73714, 73726); (74650, 74751); (74863, 74863); (74869, 74879);
   (75076, 77711); (77811, 77823); (78895, 82943); (83527, 92159);
   (92729, 92735); (92767, 92767); (92778, 92781); (92863, 92863);
   (92874, 92879); (92910, 92911); (92918, 92927); (92998, 93007);
   (93018, 93018); (93026, 93026); (93048, 93052); (93072, 93759);
   (93851, 93951); (94027, 94030); (94088, 94094); (94112, 94175);
   (94181, 94191); (94194, 94207); (100344, 100351); (101590, 101631);
   (101641, 110575); (110580, 110580); (110588, 110588); (110591, 110591);
   (110883, 110927); (110931, 110947); (110952, 110959); (111356, 113663);
   (113771, 113775); (113789, 113791); (113801, 113807); (113818, 113819);
   (113824, 118527); (118574, 118575); (118599, 118607); (118724, 118783);
   (119030, 119039); (119079, 119080); (119155, 119162); (119275, 119295);
   (119366, 119519); (119540, 119551); (119639, 119647); (119673, 119807);
   (119893, 119893); (119965, 119965); (119968, 119969); (119971, 119972);
   (119975, 119976); (119981, 119981); (119994, 119994); (119996, 119996);
   (120004, 120004); (120070, 120070); (120075, 120076); (120085, 120085);
   (120093, 120093); (120122, 120122); (120127, 120127); (120133, 120133);
   (120135, 120137); (120145, 120145); (120486, 120487); (120780, 120781);
   (121484, 121498); (121504, 121504); (121520, 122623); (122655, 122879);
   (122887, 122887); (122905, 122906); (122914, 122914); (122917, 122917);
   (122923, 123135); (123181, 123183); (123198, 123199); (123210, 123213);
   (123216, 123535); (123567, 123583); (123642, 123646); (123648, 124895);
   (124903, 124903); (124908, 124908); (124911, 124911); (124927, 124927);
   (125125, 125126); (125143, 125183); (125260, 125263); (125274, 125277);
   (125280, 126064); (126133, 126208); (126270, 126463); (126468, 126468);
   (126496, 126496); (126499, 126499); (126501, 126502); (126504, 126504);
   (126515, 126515); (126520, 126520); (126522, 126522); (126524, 126529);
   (126531, 126534); (126536, 126536); (126538, 126538); (126540, 126540);
   (126544, 126544); (126547, 126547); (126549, 126550); (126552, 126552);
   (126554, 126554); (126556, 126556); (126558, 126558); (126560, 126560);
   (126563, 126563); (126565, 126566); (126571, 126571); (126579, 126579);
   (126584, 126584); (126589, 126589); (126591, 126591); (126602, 126602);
   (126620, 126624); (126628, 126628); (126634, 126634); (126652, 126703);
   (126706, 126975); (127020, 127023); (127124, 127135); (127151, 127152);
   (127168, 127168); (127184, 127184); (127222, 127231); (127406, 127461);
   (127491, 127503); (127548, 127551); (127561, 127567); (127570, 127583);
   (127590, 127743); (128728, 128732); (128749, 128751); (128765, 128767);
   (128884, 128895); (128985, 128991); (129004, 129007); (129009, 129023);
   (129036, 129039); (129096, 129103); (129114, 129119); (129160, 129167);
   (129198, 129199); (129202, 129279); (129620, 129631); (129646, 129647);
   (129653, 129655); (129661, 129663); (129671, 129679); (129709, 129711);
   (129723, 129727); (129734, 129743); (129754, 129759); (129768, 129775);
   (129783, 129791); (129939, 129939); (129995, 130031); (130042, 131071);
   (173792, 173823); (177977, 177983); (178206, 178207); (183970, 183983);
   (191457, 194559); (195102, 196607); (201547, 917759); (918000, 1114111)]%N.

Definition isprintable (cp : N) : bool :=
  negb (existsb (fun range => (fst range <=? cp) && (cp <=? snd range))%N
                NONPRINTABLE).

(** One character of [repr] of a [str] delimited by [q]. *)
Definition repr_char (q : ascii) (ch : string) : string :=
  let cp := code_point ch in
  if String.eqb ch (char q) || String.eqb ch (char BACKSLASH)
  then String BACKSLASH ch
  else if String.eqb ch (char TAB) then String BACKSLASH "t"
  else if String.eqb ch (char LF) then String BACKSLASH "n"
  else if String.eqb ch (char CR) then String BACKSLASH "r"
  else if ((cp <? 32) || (cp =? 127))%N
       then String BACKSLASH (String "x" (hex_of 2 cp))
  else if (cp <? 127)%N then ch
  else if isprintable cp then ch
  else if (cp <=? 255)%N then String BACKSLASH (String "x" (hex_of 2 cp))
  else if (cp <=? 65535)%N then String BACKSLASH (String "u" (hex_of 4 cp))
  else String BACKSLASH (String "U" (hex_of 8 cp)).

(** [repr] of a [str]: single quotes, unless the text holds a single quote
    and no double quote. *)
Definition repr_str (s : string) : string :=
  let q := if any (Ascii.eqb SQUOTE) s && negb (any (Ascii.eqb DQUOTE) s)
           then DQUOTE else SQUOTE in
  String q (concat_all (map (repr_char q) (py_chars s)) ++ char q).

Fixpoint py_repr (v : json) : string :=
  match v with
  | JNull => "None"
  | JBool true => "True"
  | JBool false => "False"
  | JInt n => str_int n
  | JFloat r => r
  | JStr s => repr_str s
  | JArr l => "[" ++ String.concat ", " (map py_repr l) ++ "]"
  | JObj kv =>
      "{" ++ String.concat ", "
               (map (fun m => repr_str (fst m) ++ ": " ++ py_repr (snd m)) kv)
          ++ "}"
  end.

Definition py_str (v : json) : string :=
  match v with
  | JStr s => s
  | _ => py_repr v
  end.

(** The type name Python prints in a [TypeError]. *)
Definition type_name (v : json) : string :=
  match v with
  | JNull => "NoneType"
  | JBool _ => "bool"
  | JInt _ => "int"
  | JFloat _ => "float"
  | JStr _ => "str"
  | JArr _ => "list"
  | JObj _ => "dict"
  end.

(** ** Exceptions *)

Inductive exn : Type :=
| BadRequest (description : string)
| UnsupportedMediaType (description : string)
| RecursionError (msg : string)
| TypeError (msg : string)
| KeyError (key : string)
| ValueError (msg : string)
| UnicodeEncodeError (encoding : string) (code : N) (start stop : N) (reason : string)
| OSError (errno : Z) (strerror : string)
| FileNotFoundError (filename : string)
| FileExistsError (filename : string)
| PermissionError (filename : string)
| NotADirectoryError (filename : string)
| IsADirectoryError (filename : string)
| CsvError (msg : string).

Definition str_nat (n : N) : string := str_int (Z.of_N n).

(** The escape [UnicodeEncodeError] prints for the character it names. *)
Definition escaped_code (cp : N) : string :=
  if (cp <=? 255)%N then String BACKSLASH (String "x" (hex_of 2 cp))
  else if (cp <=? 65535)%N then String BACKSLASH (String "u" (hex_of 4 cp))
  else String BACKSLASH (String "U" (hex_of 8 cp)).

(** [str(e)] *)
Definition str_exn (e : exn) : string :=
  match e with
  | BadRequest d => "400 Bad Request: " ++ d
  | UnsupportedMediaType d => "415 Unsupported Media Type: " ++ d
  | RecursionError m => m
  | TypeError m => m
  | KeyError k => repr_str k
  | ValueError m => m
  | UnicodeEncodeError enc cp start stop reason =>
      if (stop =? start + 1)%N
      then "'" ++ enc ++ "' codec can't encode character '" ++ escaped_code cp
               ++ "' in position " ++ str_nat start ++ ": " ++ reason
      else "'" ++ enc ++ "' codec can't encode characters in position "
               ++ str_nat start ++ "-" ++ str_nat (stop - 1) ++ ": " ++ reason
  | OSError n m => "[Errno " ++ str_int n ++ "] " ++ m
  | FileNotFoundError f => "[Errno 2] No such file or directory: " ++ repr_str f
  | FileExistsError f => "[Errno 17] File exists: " ++ repr_str f
  | PermissionError f => "[Errno 13] Permission denied: " ++ repr_str f
  | NotADirectoryError f => "[Errno 20] Not a directory: " ++ repr_str f
  | IsADirectoryError f => "[Errno 21] Is a directory: " ++ repr_str f
  | CsvError m => m
  end.

(** ** Outcomes: a value returned or an exception raised *)

Inductive outcome (A : Type) : Type :=
| Return (a : A)
| Raise (e : exn).
Arguments Return {A} a.
Arguments Raise {A} e.

(** ** The UTF-8 encoder, [codecs.utf_8_encode] with strict errors

    It refuses a text that holds a surrogate, naming where the first run of
    surrogates starts and ends, counted in characters. *)

Fixpoint surrogate_error (pos : N) (s : string) : option exn :=
  match s with
  | EmptyString => None
  | String c r =>
      if surrogate_here s
      then Some (UnicodeEncodeError "utf-8" (code_point (take 3 s)) pos
                   (pos + surrogate_run s) "surrogates not allowed")
      else surrogate_error (if is_continuation c then pos else pos + 1)%N r
  end.

Definition utf_8_encode (text : string) : outcome string :=
  match surrogate_error 0 text with
  | Some e => Raise e
  | None => Return text
  end.

(** ** The world the script runs in

    The file system maps a path, relative to the working directory, to what
    lies there: a directory, a regular file with its bytes, or a symbolic
    link whose target does not exist.  [capacity] is the number of bytes
    the device takes for one file, when it is limited.  [stream] is the
    state of the text stream the handler opens: [None] when it is closed,
    otherwise the path it writes to and whether the [utf-8-sig] encoder has
    yet to emit its byte-order mark. *)

Inductive node : Type :=
| Dir
| File (bytes : string)
| Link.

Record world : Type := mkWorld {
  fs : list (string * node);
  may_mkdir : bool;
  may_write : bool;
  capacity : option nat;
  stream : option (string * bool);
  stdout : list string
}.

Fixpoint entry (path : string) (l : list (string * node)) : option node :=
  match l with
  | [] => None
  | (p, n) :: r => if String.eqb p path then Some n else entry path r
  end.

Fixpoint put (path : string) (n : node) (l : list (string * node))
  : list (string * node) :=
  match l with
  | [] => [(path, n)]
  | (p, m) :: r =>
      if String.eqb p path then (p, n) :: r else (p, m) :: put path n r
  end.

Definition set_fs (l : list (string * node)) (w : world) : world :=
  mkWorld l (may_mkdir w) (may_write w) (capacity w) (stream w) (stdout w).

Definition set_stream (s : option (string * bool)) (w : world) : world :=
  mkWorld (fs w) (may_mkdir w) (may_write w) (capacity w) s (stdout w).

(** The bytes of the regular file at a path. *)
Definition read_file (path : string) (w : world) : option string :=
  match entry path (fs w) with
  | Some (File bytes) => Some bytes
  | _ => None
  end.

(** ** A monad for state and exceptions

    A raised exception keeps the state reached so far: what was written
    before it stays written. *)

Definition M (A : Type) : Type := world -> outcome A * world.

Definition ret {A} (a : A) : M A := fun w => (Return a, w).
Definition raise {A} (e : exn) : M A := fun w => (Raise e, w).

(** A step that only computes: it returns or raises, and leaves the world
    as it is. *)
Definition lift {A} (o : outcome A) : M A := fun w => (o, w).

Definition bind {A B} (m : M A) (k : A -> M B) : M B :=
  fun w =>
    match m w with
    | (Return a, w') => k a w'
    | (Raise e, w') => (Raise e, w')
    end.

Notation "x <- m ;; k" := (bind m (fun x => k))
  (at level 61, m at next level, right associativity).
Notation "m ;;; k" := (bind m (fun _ => k))
  (at level 61, right associativity).

(** [try: m  except Exception as e: h e] *)
Definition try_except {A} (m : M A) (h : exn -> M A) : M A :=
  fun w =>
    match m w with
    | (Return a, w') => (Return a, w')
    | (Raise e, w') => h e w'
    end.

(** [try: m  except FileExistsError: pass] *)
Definition ignore_exists (m : M unit) : M unit :=
  fun w =>
    match m w with
    | (Raise (FileExistsError _), w') => (Return tt, w')
    | r => r
    end.

(** [for x in l: body x] *)
Fixpoint for_each {A} (l : list A) (body : A -> M unit) : M unit :=
  match l with
  | [] => ret tt
  | x :: r => body x ;;; for_each r body
  end.

Definition print (line : string) : M unit :=
  fun w => (Return tt,
            mkWorld (fs w) (may_mkdir w) (may_write w) (capacity w) (stream w)
                    (stdout w ++ [line])).

(** ** [os.path] and [os] on a POSIX system *)

Definition ends_with_slash (s : string) : bool :=
  match get (String.length s - 1) s with
  | Some c => Ascii.eqb c "/"
  | None => false
  end.

Definition os_path_join (a b : string) : string :=
  match b with
  | String "/" _ => b
  | _ => if (String.length a =? 0)%nat || ends_with_slash a
         then a ++ b else a ++ "/" ++ b
  end.

(** The path up to and with its last slash. *)
Fixpoint dir_prefix (s : string) : string :=
  match s with
  | EmptyString => EmptyString
  | String c r =>
      if any (Ascii.eqb "/") s then String c (dir_prefix r) else EmptyString
  end.

Fixpoint rstrip_slash (s : string) : string :=
  match s with
  | EmptyString => EmptyString
  | String c r =>
      match rstrip_slash r with
      | EmptyString => if Ascii.eqb c "/" then EmptyString else char c
      | r' => String c r'
      end
  end.

(** [os.path.dirname]: the directory a path lies in, empty for the working
    directory. *)
Definition os_path_dirname (path : string) : string :=
  match rstrip_slash (dir_prefix path) with
  | EmptyString => dir_prefix path
  | head => head
  end.

(** The components of a path between its slashes; [cur] is the component
    begun. *)
Fixpoint split_slash (cur s : string) : list string :=
  match s with
  | EmptyString => [cur]
  | String c r =>
      if Ascii.eqb c "/" then cur :: split_slash EmptyString r
      else split_slash (cur ++ char c) r
  end.

(** What the kernel answers when the directory a path lies in is not
    there to hold it. *)
Definition parent_error (path : string) (w : world) : option exn :=
  match os_path_dirname path with
  | EmptyString => None
  | parent =>
      match entry parent (fs w) with
      | Some Dir => None
      | Some (File _) => Some (NotADirectoryError path)
      | Some Link | None => Some (FileNotFoundError path)
      end
  end.

(** [os.path.exists] follows symbolic links: a link to nothing does not
    exist. *)
Definition os_path_exists (path : string) : M bool :=
  fun w =>
    (Return (match entry path (fs w) with
             | Some Dir | Some (File _) => true
             | Some Link | None => false
             end), w).

Definition os_mkdir (path : string) : M unit :=
  fun w =>
    match parent_error path w with
    | Some e => (Raise e, w)
    | None =>
        match entry path (fs w) with
        | Some _ => (Raise (FileExistsError path), w)
        | None =>
            if may_mkdir w then (Return tt, set_fs (put path Dir (fs w)) w)
            else (Raise (PermissionError path), w)
        end
    end.

(** [os.makedirs(name)] on the components of [name] under [base]: the
    directories leading to the last one are made where they are missing,
    then the last one is made, which must not be there. *)
Fixpoint makedirs_parts (base : string) (parts : list string) : M unit :=
  match parts with
  | [] => ret tt
  | [last] => os_mkdir (os_path_join base last)
  | part :: rest =>
      present <- os_path_exists (os_path_join base part) ;;
      (if present then ret tt
       else ignore_exists (os_mkdir (os_path_join base part))) ;;;
      makedirs_parts (os_path_join base part) rest
  end.

Definition os_makedirs (name : string) : M unit :=
  makedirs_parts EmptyString (split_slash EmptyString name).

(** ** The text stream: [open(path, mode='w', newline='', encoding='utf-8-sig')]

    Opening creates the file or truncates it.  With [newline=''] no line
    ending is translated.  A write first encodes its text, which fails on a
    surrogate and then writes nothing of the text; the first text encoded
    is preceded by the byte-order mark.  When the device does not take all
    the bytes, the file holds those it took and the write raises [OSError].

    CPython buffers what is written and hands it to the file when the
    buffer is full or the stream is closed, so that it may raise this
    [OSError] at a later write or when the [with] statement closes the
    stream; that statement closes the stream on every way out of its block
    and the error of the close replaces the one under way, so the handler
    ends with the same exception and the same file as in the model, which
    hands the bytes over at once. *)

Definition BOM : string :=
  String (ascii_of_nat 239) (String (ascii_of_nat 187) (char (ascii_of_nat 191))).

Definition ENOSPC : exn := OSError 28 "No space left on device".

(** The exception [open] raises for a path, if it raises one. *)
Definition open_error_at (path : string) (w : world) : option exn :=
  match parent_error path w with
  | Some e => Some e
  | None =>
      match entry path (fs w) with
      | Some Dir => Some (IsADirectoryError path)
      | _ => if may_write w then None else Some (PermissionError path)
      end
  end.

Definition open_w (path : string) : M unit :=
  fun w =>
    match open_error_at path w with
    | Some e => (Raise e, w)
    | None =>
        (Return tt,
         set_stream (Some (path, true))
           (set_fs (put path (File EmptyString) (fs w)) w))
    end.

(** A device of the given capacity takes the bytes. *)
Definition room_for (cap : option nat) (bytes : string) : bool :=
  match cap with
  | Some room => (String.length bytes <=? room)%nat
  | None => true
  end.

(** The bytes it keeps of them. *)
Definition kept (cap : option nat) (bytes : string) : string :=
  match cap with
  | Some room => take room bytes
  | None => bytes
  end.

(** The device of the world takes the bytes. *)
Definition fits (bytes : string) (w : world) : bool :=
  room_for (capacity w) bytes.

(** The bytes of the file once the device has taken what it takes. *)
Definition stored (bytes : string) (w : world) : string :=
  kept (capacity w) bytes.

Definition f_write (text : string) : M unit :=
  fun w =>
    match stream w with
    | None => (Raise (ValueError "I/O operation on closed file."), w)
    | Some (path, fresh) =>
        match utf_8_encode text with
        | Raise e => (Raise e, set_stream (Some (path, false)) w)
        | Return encoded =>
            match entry path (fs w) with
            | Some (File bytes) =>
                let all := bytes ++ (if fresh then BOM else EmptyString) ++ encoded in
                (if fits all w then Return tt else Raise ENOSPC,
                 set_stream (Some (path, false))
                   (set_fs (put path (File (stored all w)) (fs w)) w))
            | _ => (Return tt, set_stream (Some (path, false)) w)
            end
        end
    end.

Definition f_close : M unit :=
  fun w => (Return tt, set_stream None w).

(** [with open(path, ...) as f: body] *)
Definition with_open (path : string) (body : M unit) : M unit :=
  fun w =>
    match open_w path w with
    | (Raise e, w1) => (Raise e, w1)
    | (Return _, w1) =>
        match body w1 with
        | (r, w2) => (r, snd (f_close w2))
        end
    end.

(** ** [csv.writer(f)] with the [excel] dialect

    delimiter [,], quotechar the double quote, [doublequote=True],
    [lineterminator='\r\n'], [quoting=QUOTE_MINIMAL], no escapechar. *)

Definition lineterminator : string := String CR (char LF).

(** A character that makes the writer quote its field. *)
Definition special (c : ascii) : bool :=
  Ascii.eqb c COMMA || Ascii.eqb c DQUOTE || any (Ascii.eqb c) lineterminator.

Fixpoint double_quotes (s : string) : string :=
  match s with
  | EmptyString => EmptyString
  | String c r =>
      if Ascii.eqb c DQUOTE then String DQUOTE (String DQUOTE (double_quotes r))
      else String c (double_quotes r)
  end.

Definition join_append (field : string) : string :=
  if any special field
  then String DQUOTE (double_quotes field ++ char DQUOTE)
  else field.

(** The text the writer takes for a field: nothing for [None], the text
    itself for a [str], [str(field)] for anything else. *)
Definition field_text (v : json) : string :=
  match v with
  | JNull => EmptyString
  | _ => py_str v
  end.

(** The record [writerow] hands to [f.write]: the fields joined by the
    delimiter, then the line terminator.  A row of one empty field is
    written as an empty quoted field. *)
Definition record_line (row : list json) : string :=
  let rec := String.concat (char COMMA) (map (fun v => join_append (field_text v)) row) in
  match row, rec with
  | _ :: _, EmptyString => String DQUOTE (char DQUOTE)
  | _, _ => rec
  end.

Definition record_text (row : list json) : string :=
  record_line row ++ lineterminator.

Definition writerow (row : list json) : M unit := f_write (record_text row).

(** ** Subscription and iteration on deserialised JSON *)

Fixpoint lookup (key : string) (kv : list (string * json)) : option json :=
  match kv with
  | [] => None
  | (k, v) :: r => if String.eqb k key then Some v else lookup key r
  end.

(** [v[key]] for a [str] key *)
Definition getitem (v : json) (key : string) : outcome json :=
  match v with
  | JObj kv =>
      match lookup key kv with
      | Some x => Return x
      | None => Raise (KeyError key)
      end
  | JStr _ => Raise (TypeError "string indices must be integers, not 'str'")
  | JArr _ => Raise (TypeError "list indices must be integers or slices, not str")
  | _ => Raise (TypeError ("'" ++ type_name v ++ "' object is not subscriptable"))
  end.

(** What [for item in v] runs over: the elements of a list, the keys of a
    dict, the characters of a str. *)
Definition py_iter (v : json) : outcome (list json) :=
  match v with
  | JArr l => Return l
  | JObj kv => Return (map (fun m => JStr (fst m)) kv)
  | JStr s => Return (map JStr (py_chars s))
  | _ => Raise (TypeError ("'" ++ type_name v ++ "' object is not iterable"))
  end.

(** ** Flask: the request and the response

    [request.json] raises [UnsupportedMediaType] when the request does not
    declare a JSON content type.  Otherwise it hands the body to
    [json.loads]: a [ValueError] of the decoder becomes a [BadRequest],
    which, the script running the application with [debug=True], keeps the
    decoder's message in its description; a [RecursionError], raised for a
    body nested too deep, is not a [ValueError] and goes through as it is.
    The decoder itself is not modelled: a request carries what it makes of
    the body, and its messages, which are ASCII. *)

Inductive payload : Type :=
| Undecodable (why : string)
| TooDeep (msg : string)
| Decoded (v : json).

Record request : Type := mkRequest {
  is_json : bool;
  body : payload
}.

Definition request_json (r : request) : outcome json :=
  if is_json r then
    match body r with
    | Decoded v => Return v
    | Undecodable why => Raise (BadRequest ("Failed to decode JSON object: " ++ why))
    | TooDeep msg => Raise (RecursionError msg)
    end
  else
    Raise (UnsupportedMediaType
             "Did not attempt to load JSON data because the request Content-Type was not 'application/json'.").

Record response : Type := mkResponse {
  resp_json : json;
  status_code : Z
}.

Definition jsonify (d : list (string * json)) : json := JObj d.

(** ** The script *)

Definition SAVE_FOLDER : string := "SwapDatas".
Definition SAVE_PATH : string := os_path_join SAVE_FOLDER "InputDatas.csv".

(** The statements at module level that ensure the folder:
    [if not os.path.exists(SAVE_FOLDER): os.makedirs(SAVE_FOLDER)] *)
Definition module_init : M unit :=
  present <- os_path_exists SAVE_FOLDER ;;
  if negb present then os_makedirs SAVE_FOLDER else ret tt.

Definition save_config (req : request) : M response :=
  try_except
    (data <- lift (request_json req) ;;
     with_open SAVE_PATH
       (writerow [JStr "Panel"; JStr "Parameter"; JStr "Value"] ;;;
        items <- lift (py_iter data) ;;
        for_each items (fun item =>
          panel <- lift (getitem item "panel") ;;
          parameter <- lift (getitem item "parameter") ;;
          value <- lift (getitem item "value") ;;
          writerow [panel; parameter; value])) ;;;
     print ("Successfully saved to " ++ SAVE_PATH) ;;;
     ret (mkResponse
            (jsonify [("status", JStr "success");
                      ("message", JStr ("Saved to " ++ SAVE_PATH))])
            200))
    (fun e =>
       print ("Error: " ++ str_exn e) ;;;
       ret (mkResponse
              (jsonify [("status", JStr "error");
                        ("message", JStr (str_exn e))])
              500)).

(** [app.run(port=8080, debug=True)] serves requests until the process is
    stopped.  Of what it does the model keeps the calls of the handler,
    one for each request to [/api/save-config], in the order they come. *)
Definition app_run (reqs : list request) : M unit :=
  for_each reqs (fun req => save_config req ;;; ret tt).

(** The block under [if __name__ == '__main__'], run when the script is
    executed: the banner, then the server. *)
Definition main_block (reqs : list request) : M unit :=
  print "------------------------------------------" ;;;
  print "仿真系统服务器已启动！" ;;;
  print "直接点击此链接进行访问: http://localhost:8080" ;;;
  print "------------------------------------------" ;;;
  app_run reqs.

(** [python InteractiveBackend.py]: the statements at module level, then
    the main block.  (With [debug=True] the reloader of the server runs the
    script a second time in a child process, which is the one that serves;
    the model is one run of the script.) *)
Definition script (reqs : list request) : M unit :=
  module_init ;;; main_block reqs.

(** * Reading the file back

    What a Python program gets that opens the file the way the handler wrote
    it, [open(path, newline='', encoding='utf-8-sig')], and reads its lines,
    or hands it to [csv.reader]. *)

(** The [utf-8-sig] decoder drops one leading byte-order mark. *)
Fixpoint strip_prefix (p s : string) : option string :=
  match p, s with
  | EmptyString, _ => Some s
  | String a p', String b s' => if Ascii.eqb a b then strip_prefix p' s' else None
  | String _ _, EmptyString => None
  end.

Definition decode_utf8_sig (bytes : string) : string :=
  match strip_prefix BOM bytes with
  | Some text => text
  | None => bytes
  end.

Definition is_eol (c : ascii) : bool := Ascii.eqb c CR || Ascii.eqb c LF.

(** The lines of a text stream opened with [newline='']: a line ends after
    LF, after CR LF, or after a CR that no LF follows, and keeps its ending;
    text after the last ending is a last line.  [cur] is the line begun. *)
Fixpoint readlines_from (cur s : string) : list string :=
  match s with
  | EmptyString =>
      match cur with
      | EmptyString => []
      | _ => [cur]
      end
  | String c r =>
      if Ascii.eqb c LF then (cur ++ char LF) :: readlines_from EmptyString r
      else if Ascii.eqb c CR then
        match r with
        | String d r' =>
            if Ascii.eqb d LF
            then (cur ++ lineterminator) :: readlines_from EmptyString r'
            else (cur ++ char CR) :: readlines_from EmptyString r
        | EmptyString => [cur ++ char CR]
        end
      else readlines_from (cur ++ char c) r
  end.

Definition readlines (text : string) : list string :=
  readlines_from EmptyString text.

(** A line without its ending. *)
Fixpoint strip_eol (line : string) : string :=
  match line with
  | EmptyString => EmptyString
  | String c r => if is_eol c then EmptyString else String c (strip_eol r)
  end.

(** The physical lines of the file. *)
Definition file_lines (bytes : string) : list string :=
  map strip_eol (readlines (decode_utf8_sig bytes)).

(** ** [csv.reader] with the [excel] dialect

    The parser of the [csv] module: a state machine fed the characters of
    each line and, after each line, an end-of-line mark.  The states for an
    escape character are left out, the dialect having none.  A field may
    grow to [csv.field_size_limit()] characters, 131072 unless the program
    changes it. *)

Inductive pstate : Type :=
| START_RECORD
| START_FIELD
| IN_FIELD
| IN_QUOTED_FIELD
| QUOTE_IN_QUOTED_FIELD
| EAT_CRNL.

Record reader : Type := mkReader {
  state : pstate;
  field : string;
  fields : list string
}.

Inductive input : Type :=
| Ch (c : ascii)
| EOL.

Definition FIELD_LIMIT : N := 131072.

Definition parse_reset : reader := mkReader START_RECORD EmptyString [].

Definition set_state (st : pstate) (rd : reader) : reader :=
  mkReader st (field rd) (fields rd).

Definition parse_save_field (st : pstate) (rd : reader) : reader :=
  mkReader st EmptyString (fields rd ++ [field rd])%list.

(** The parser adds one character at a time and refuses it when the field
    has reached the limit; here it is given the bytes of the character one
    by one, and decides at the first. *)
Definition parse_add_char (c : ascii) (st : pstate) (rd : reader)
  : outcome reader :=
  if negb (is_continuation c) && (FIELD_LIMIT <=? char_count (field rd))%N
  then Raise (CsvError "field larger than field limit (131072)")
  else Return (mkReader st (field rd ++ char c) (fields rd)).

(** The case [START_FIELD], which the case [START_RECORD] falls through to
    on a character that does not end a line. *)
Definition start_field (rd : reader) (c : input) : outcome reader :=
  match c with
  | EOL => Return (parse_save_field START_RECORD rd)
  | Ch x =>
      if is_eol x then Return (parse_save_field EAT_CRNL rd)
      else if Ascii.eqb x DQUOTE then Return (set_state IN_QUOTED_FIELD rd)
      else if Ascii.eqb x COMMA then Return (parse_save_field START_FIELD rd)
      else parse_add_char x IN_FIELD rd
  end.

Definition parse_process_char (rd : reader) (c : input) : outcome reader :=
  match state rd with
  | START_RECORD =>
      match c with
      | EOL => Return rd
      | Ch x => if is_eol x then Return (set_state EAT_CRNL rd)
                else start_field rd c
      end
  | START_FIELD => start_field rd c
  | IN_FIELD =>
      match c with
      | EOL => Return (parse_save_field START_RECORD rd)
      | Ch x =>
          if is_eol x then Return (parse_save_field EAT_CRNL rd)
          else if Ascii.eqb x COMMA then Return (parse_save_field START_FIELD rd)
          else parse_add_char x IN_FIELD rd
      end
  | IN_QUOTED_FIELD =>
      match c with
      | EOL => Return rd
      | Ch x =>
          if Ascii.eqb x DQUOTE then Return (set_state QUOTE_IN_QUOTED_FIELD rd)
          else parse_add_char x IN_QUOTED_FIELD rd
      end
  | QUOTE_IN_QUOTED_FIELD =>
      match c with
      | EOL => Return (parse_save_field START_RECORD rd)
      | Ch x =>
          if Ascii.eqb x DQUOTE then parse_add_char x IN_QUOTED_FIELD rd
          else if Ascii.eqb x COMMA then Return (parse_save_field START_FIELD rd)
          else if is_eol x then Return (parse_save_field EAT_CRNL rd)
          else parse_add_char x IN_FIELD rd
      end
  | EAT_CRNL =>
      match c with
      | EOL => Return (set_state START_RECORD rd)
      | Ch x =>
          if is_eol x then Return rd
          else Raise (CsvError
                        "new-line character seen in unquoted field - do you need to open the file with newline=''?")
      end
  end.

(** The characters of one line. *)
Fixpoint feed (rd : reader) (line : string) : outcome reader :=
  match line with
  | EmptyString => Return rd
  | String c r =>
      match parse_process_char rd (Ch c) with
      | Raise e => Raise e
      | Return rd' => feed rd' r
      end
  end.

(** The end of a line: the reader gets the end-of-line mark; back at
    [START_RECORD] it yields the fields of a record and starts afresh on
    what follows, otherwise the record goes on with what follows. *)
Definition end_line (rd : reader)
           (next : reader -> outcome (list (list string)))
  : outcome (list (list string)) :=
  match parse_process_char rd EOL with
  | Raise e => Raise e
  | Return rd' =>
      match state rd' with
      | START_RECORD =>
          match next parse_reset with
          | Raise e => Raise e
          | Return records => Return (fields rd' :: records)
          end
      | _ => next rd'
      end
  end.

(** [list(csv.reader(lines))]: all the records.  When the lines end inside
    a record, its fields are yielded with the field begun. *)
Fixpoint read_records (rd : reader) (lines : list string)
  : outcome (list (list string)) :=
  match lines with
  | [] =>
      match field rd, state rd with
      | EmptyString, IN_QUOTED_FIELD | String _ _, _ =>
          Return [(fields rd ++ [field rd])%list]
      | EmptyString, _ => Return []
      end
  | line :: rest =>
      match feed rd line with
      | Raise e => Raise e
      | Return rd' => end_line rd' (fun rd'' => read_records rd'' rest)
      end
  end.

Definition csv_reader (lines : list string) : outcome (list (list string)) :=
  read_records parse_reset lines.

(** The records of the file. *)
Definition read_csv (bytes : string) : outcome (list (list string)) :=
  csv_reader (readlines (decode_utf8_sig bytes)).

Definition begun_of (cur : string) : bool :=
  match cur with
  | EmptyString => false
  | String _ _ => true
  end.

(** The reader run over a text directly: [rd] is the reader after the
    characters of the line begun, [begun] tells whether that line has any.
    [scan_sound] shows that what it yields, [csv_reader] yields from the
    lines of the text. *)
Fixpoint scan (rd : reader) (begun : bool) (s : string)
  : outcome (list (list string)) :=
  match s with
  | EmptyString =>
      if begun then end_line rd (fun rd' => read_records rd' [])
      else read_records rd []
  | String c r =>
      match parse_process_char rd (Ch c) with
      | Raise e => Raise e
      | Return rd1 =>
          if Ascii.eqb c LF then end_line rd1 (fun rd' => scan rd' false r)
          else if Ascii.eqb c CR then
            match r with
            | String d r' =>
                if Ascii.eqb d LF then
                  match parse_process_char rd1 (Ch d) with
                  | Raise e => Raise e
                  | Return rd2 => end_line rd2 (fun rd' => scan rd' false r')
                  end
                else end_line rd1 (fun rd' => scan rd' false r)
            | EmptyString => end_line rd1 (fun rd' => read_records rd' [])
            end
          else scan rd1 true r
      end
  end.

(** The state of the scan after the text of one field. *)
Definition after_field (st : pstate) (f : string) (fs : list string) (b : bool)
  : reader * bool :=
  if any special f then (mkReader QUOTE_IN_QUOTED_FIELD f fs, true)
  else match f with
       | EmptyString => (mkReader st EmptyString fs, b)
       | String _ _ => (mkReader IN_FIELD f fs, true)
       end.

(** A record put before the records that follow. *)
Definition and_then (record : list string) (o : outcome (list (list string)))
  : outcome (list (list string)) :=
  match o with
  | Return records => Return (record :: records)
  | Raise e => Raise e
  end.

(** * What one call of the handler does *)

Definition header_line : string :=
  record_text [JStr "Panel"; JStr "Parameter"; JStr "Value"].

(** The three subscriptions of the loop body, left to right. *)
Definition item_fields (item : json) : outcome (list json) :=
  match getitem item "panel" with
  | Raise e => Raise e
  | Return panel =>
      match getitem item "parameter" with
      | Raise e => Raise e
      | Return parameter =>
          match getitem item "value" with
          | Raise e => Raise e
          | Return value => Return [panel; parameter; value]
          end
      end
  end.

(** The body of the handler's loop. *)
Definition loop_body (item : json) : M unit :=
  panel <- lift (getitem item "panel") ;;
  parameter <- lift (getitem item "parameter") ;;
  value <- lift (getitem item "value") ;;
  writerow [panel; parameter; value].

(** The exception the loop body raises on an item before anything of it
    reaches the device: that of a subscription, or that of the encoder on
    the record. *)
Definition item_error (item : json) : option exn :=
  match item_fields item with
  | Raise e => Some e
  | Return row =>
      match utf_8_encode (record_text row) with
      | Raise e => Some e
      | Return _ => None
      end
  end.

(** The row of a record. *)
Definition row_of (item : json) : list json :=
  match item_fields item with
  | Return row => row
  | Raise _ => []
  end.

(** The records the loop hands to the stream before it ends, and the
    exception that ends it, when one of the items raises one. *)
Fixpoint rows_until (items : list json) : string * option exn :=
  match items with
  | [] => (EmptyString, None)
  | item :: rest =>
      match item_error item with
      | Some e => (EmptyString, Some e)
      | None =>
          (record_text (row_of item) ++ fst (rows_until rest),
           snd (rows_until rest))
      end
  end.

(** All the text the [with] block hands to the stream, and the exception
    that ends it. *)
Definition written (data : json) : string * option exn :=
  match py_iter data with
  | Raise e => (header_line, Some e)
  | Return items =>
      (header_line ++ fst (rows_until items), snd (rows_until items))
  end.

Definition success_response : response :=
  mkResponse
    (jsonify [("status", JStr "success");
              ("message", JStr ("Saved to " ++ SAVE_PATH))])
    200.

Definition error_response (e : exn) : response :=
  mkResponse
    (jsonify [("status", JStr "error"); ("message", JStr (str_exn e))])
    500.

Definition logged (line : string) (w : world) : world :=
  mkWorld (fs w) (may_mkdir w) (may_write w) (capacity w) (stream w)
          (stdout w ++ [line]).

Definition succeeded (w : world) : outcome response * world :=
  (Return success_response, logged ("Successfully saved to " ++ SAVE_PATH) w).

Definition failed (e : exn) (w : world) : outcome response * world :=
  (Return (error_response e), logged ("Error: " ++ str_exn e) w).

(** The world when the [with] block is left with [bytes] in the file. *)
Definition closed_with (bytes : string) (w : world) : world :=
  mkWorld (put SAVE_PATH (File bytes) (fs w)) (may_mkdir w) (may_write w)
          (capacity w) None (stdout w).

(** The exception [open] raises in a world, if it raises one. *)
Definition open_error (w : world) : option exn := open_error_at SAVE_PATH w.

(** The handler read off as a function of the request and the world. *)
Definition save_config_run (req : request) (w : world) : outcome response * world :=
  match request_json req with
  | Raise e => failed e w
  | Return data =>
      match open_error w with
      | Some e => failed e w
      | None =>
          if fits (BOM ++ fst (written data)) w then
            match snd (written data) with
            | None => succeeded (closed_with (BOM ++ fst (written data)) w)
            | Some e => failed e (closed_with (BOM ++ fst (written data)) w)
            end
          else
            failed ENOSPC
                   (closed_with (stored (BOM ++ fst (written data)) w) w)
      end
  end.

(** The exception a call ends in, if it ends in one. *)
Definition failure (req : request) (w : world) : option exn :=
  match request_json req with
  | Raise e => Some e
  | Return data =>
      match open_error w with
      | Some e => Some e
      | None =>
          if fits (BOM ++ fst (written data)) w then snd (written data)
          else Some ENOSPC
      end
  end.

(** ** The vocabulary of the specification *)

(** What lies at the path of the save folder. *)
Inductive folder_state : Type :=
| NoFolder
| DanglingLink
| NotAFolder
| Folder.

Definition disk (w : world) : folder_state :=
  match entry SAVE_FOLDER (fs w) with
  | None => NoFolder
  | Some Link => DanglingLink
  | Some (File _) => NotAFolder
  | Some Dir => Folder
  end.

(** The bytes of the CSV file. *)
Definition csv_file (w : world) : option string := read_file SAVE_PATH w.

Definition has_key (key : string) (v : json) : bool :=
  match v with
  | JObj kv => match lookup key kv with Some _ => true | None => false end
  | _ => false
  end.

(** An object that contains the keys panel, parameter and value. *)
Definition is_record (v : json) : bool :=
  has_key "panel" v && has_key "parameter" v && has_key "value" v.

Definition is_object (v : json) : bool :=
  match v with
  | JObj _ => true
  | _ => false
  end.

(** The table of an array of records: the header and a row for each. *)
Definition csv_table (items : list json) : string :=
  header_line ++ concat_all (map (fun item => record_text (row_of item)) items).

(** The bytes of a file that holds the header and the given rows. *)
Definition table_bytes (rows : list (list json)) : string :=
  BOM ++ header_line ++ concat_all (map record_text rows).

(** A POST with a JSON content type and a body that parses to [v]. *)
Definition post_json (v : json) : request := mkRequest true (Decoded v).

Definition record (panel parameter value : json) : json :=
  JObj [("panel", panel); ("parameter", parameter); ("value", value)].


(** No field of any row of the items holds a lone surrogate: all the text
    can be encoded as UTF-8. *)
Definition encodable_fields (items : list json) : bool :=
  forallb (fun item =>
             forallb (fun v => negb (has_surrogate (field_text v))) (row_of item))
          items.

(** No field of a row is longer than the reader's limit. *)
Definition row_within_limit (row : list json) : bool :=
  forallb (fun v => (char_count (field_text v) <=? FIELD_LIMIT)%N) row.

(** No field of any row of the items is longer than the reader's limit. *)
Definition within_limit (items : list json) : bool :=
  forallb (fun item => row_within_limit (row_of item)) items.

(** A run of the server: the requests are handled one after the other. *)
Fixpoint serve (reqs : list request) (w : world) : world :=
  match reqs with
  | [] => w
  | req :: rest => serve rest (snd (save_config req w))
  end.

(** The file, when there is one, holds the header and then data rows of
    three fields. *)
Definition header_first (w : world) : Prop :=
  match csv_file w with
  | None => True
  | Some bytes =>
      exists rows, Forall (fun row => length row = 3%nat) rows
                   /\ bytes = table_bytes rows
  end.

(** The conditions the specification lists for a failed save. *)
Definition not_deserializable (req : request) : bool :=
  match request_json req with
  | Raise _ => true
  | Return _ => false
  end.

Definition object_missing_key (req : request) : bool :=
  match request_json req with
  | Raise _ => false
  | Return data =>
      existsb (fun v => is_object v && negb (is_record v))
              (data :: match data with JArr l => l | _ => [] end)
  end.

Definition io_error (w : world) : bool :=
  match open_error w with
  | Some _ => true
  | None => false
  end.

(** Worlds and requests the examples use. *)
Definition started_world : world :=
  mkWorld [("SwapDatas", Dir)] true true None None [].
Definition world_holding (bytes : string) : world :=
  mkWorld [("SwapDatas", Dir); ("SwapDatas/InputDatas.csv", File bytes)]
          true true None None [].

(** A world whose device takes [room] bytes. *)
Definition cramped_world (room : nat) : world :=
  mkWorld [("SwapDatas", Dir)] true true (Some room) None [].

Definition audio_volume : json := record (JStr "Audio") (JStr "Volume") (JInt 80).

(** An object that misses the value key. *)
Definition audio_bass_incomplete : json :=
  JObj [("panel", JStr "Audio"); ("parameter", JStr "Bass")].

(** The lone surrogate U+D800, which JSON writes \ud800. *)
Definition SURROGATE : string :=
  String (ascii_of_nat 237) (String (ascii_of_nat 160) (char (ascii_of_nat 128))).

(** A complete record whose value cannot be encoded. *)
Definition audio_surrogate : json :=
  record (JStr "Audio") (JStr "Volume") (JStr SURROGATE).

(** ** The vocabulary of the further properties *)

Definition is_text (v : json) : bool :=
  match v with
  | JStr _ => true
  | _ => false
  end.

(** A value whose iteration yields nothing. *)
Definition is_empty (v : json) : bool :=
  match v with
  | JArr [] | JObj [] | JStr EmptyString => true
  | _ => false
  end.

(** The first of the keys panel, parameter and value, in the order the loop
    body asks for them, that an object lacks. *)
Definition first_missing (kv : list (string * json)) : option string :=
  find (fun key => match lookup key kv with Some _ => false | None => true end)
       ["panel"; "parameter"; "value"].

(** The texts of the rows of an array of records. *)
Definition texts (items : list json) : list (list string) :=
  map (fun item => map field_text (row_of item)) items.

(** The lines the main block prints before it serves. *)
Definition BANNER : list string :=
  ["------------------------------------------";
   "仿真系统服务器已启动！";
   "直接点击此链接进行访问: http://localhost:8080";
   "------------------------------------------"].

(** The world once the banner is printed. *)
Definition announced (w : world) : world :=
  fold_left (fun w' line => logged line w') BANNER w.

(** A text of one character more than the reader takes in a field. *)
Definition long_text : string :=
  concat_all (repeat "a" (N.to_nat (FIELD_LIMIT + 1))).

(** * Proofs *)

(** ** Strings *)

Lemma append_nil_r (s : string) : s ++ EmptyString = s.
Proof. induction s as [|c s IH]; simpl; [reflexivity | now rewrite IH]. Qed.

Lemma append_assoc (a b c : string) : (a ++ b) ++ c = a ++ b ++ c.
Proof. induction a as [|x a IH]; simpl; [reflexivity | now rewrite IH]. Qed.

Lemma append_inv_head (a b c : string) : a ++ b = a ++ c -> b = c.
Proof.
  induction a as [|x a IH]; cbn [append]; intros H; [exact H|].
  injection H as H. now apply IH.
Qed.

Lemma length_append (a b : string) :
  String.length (a ++ b) = String.length a + String.length b.
Proof. induction a as [|x a IH]; simpl; [reflexivity | now rewrite IH]. Qed.

Lemma take_all (n : nat) (s : string) : String.length s <= n -> take n s = s.
Proof.
  revert n. induction s as [|c s IH]; intros [|n] H; simpl in *;
    try reflexivity; try lia.
  rewrite IH; [reflexivity | lia].
Qed.

Lemma take_append (n : nat) (a b : string) :
  n <= String.length a -> take n (a ++ b) = take n a.
Proof.
  revert n. induction a as [|c a IH]; intros [|n] H; simpl in *;
    try reflexivity; try lia.
  rewrite IH; [reflexivity | lia].
Qed.

(** ** The device *)

Lemma kept_fits (cap : option nat) (bytes : string) :
  room_for cap bytes = true -> kept cap bytes = bytes.
Proof.
  destruct cap as [room|]; cbn; [|reflexivity].
  intros H. apply Nat.leb_le in H. now apply take_all.
Qed.

Lemma kept_full (cap : option nat) (a b : string) :
  room_for cap a = false -> kept cap (a ++ b) = kept cap a.
Proof.
  destruct cap as [room|]; cbn; [|discriminate].
  intros H. apply Nat.leb_gt in H. apply take_append. lia.
Qed.

Lemma room_for_prefix (cap : option nat) (a b : string) :
  room_for cap (a ++ b) = true -> room_for cap a = true.
Proof.
  destruct cap as [room|]; cbn; [|reflexivity].
  rewrite !Nat.leb_le, length_append. lia.
Qed.

Lemma no_room_append (cap : option nat) (a b : string) :
  room_for cap a = false -> room_for cap (a ++ b) = false.
Proof.
  intros H. destruct (room_for cap (a ++ b)) eqn:E; [|reflexivity].
  apply room_for_prefix in E. congruence.
Qed.

(** ** The file system *)

Lemma entry_put_same (path : string) (n : node) (l : list (string * node)) :
  entry path (put path n l) = Some n.
Proof.
  induction l as [|[p m] l IH]; cbn [put entry].
  - now rewrite String.eqb_refl.
  - destruct (String.eqb p path) eqn:E; cbn [entry]; now rewrite E.
Qed.

Lemma entry_put_other (path other : string) (n : node) (l : list (string * node)) :
  other <> path -> entry other (put path n l) = entry other l.
Proof.
  intros Hne. induction l as [|[p m] l IH]; cbn [put entry].
  - destruct (String.eqb path other) eqn:E; [|reflexivity].
    apply String.eqb_eq in E. now elim Hne.
  - destruct (String.eqb p path) eqn:E; cbn [entry].
    + apply String.eqb_eq in E. subst p.
      destruct (String.eqb path other) eqn:E'; [|reflexivity].
      apply String.eqb_eq in E'. now elim Hne.
    + now rewrite IH.
Qed.

Lemma put_put (path : string) (n m : node) (l : list (string * node)) :
  put path m (put path n l) = put path m l.
Proof.
  induction l as [|[p k] l IH]; cbn [put].
  - now rewrite String.eqb_refl.
  - destruct (String.eqb p path) eqn:E; cbn [put]; rewrite E;
      [reflexivity | now rewrite IH].
Qed.

(** ** The encoder *)

Lemma surrogate_error_none (s : string) :
  forall pos, has_surrogate s = false -> surrogate_error pos s = None.
Proof.
  induction s as [|c s IH]; intros pos H; [reflexivity|].
  cbn [has_surrogate] in H. apply orb_false_iff in H as [Hh Hr].
  cbn [surrogate_error]. rewrite Hh. now apply IH.
Qed.

Lemma surrogate_error_some (s : string) :
  forall pos, has_surrogate s = true -> surrogate_error pos s <> None.
Proof.
  induction s as [|c s IH]; intros pos H; [discriminate H|].
  cbn [has_surrogate] in H. cbn [surrogate_error].
  destruct (surrogate_here (String c s)); [discriminate|].
  cbn [orb] in H. now apply IH.
Qed.

Lemma encode_plain (text : string) :
  has_surrogate text = false -> utf_8_encode text = Return text.
Proof.
  intros H. unfold utf_8_encode. now rewrite (surrogate_error_none _ 0%N H).
Qed.

Lemma encode_returns (text encoded : string) :
  utf_8_encode text = Return encoded -> encoded = text.
Proof.
  unfold utf_8_encode. destruct (surrogate_error 0 text); [discriminate|].
  intros H. now injection H.
Qed.

Lemma encode_raises (text : string) (e : exn) :
  utf_8_encode text = Raise e -> has_surrogate text = true.
Proof.
  unfold utf_8_encode. intros H.
  destruct (has_surrogate text) eqn:E; [reflexivity|].
  now rewrite (surrogate_error_none _ 0%N E) in H.
Qed.

(** ** The handler is the function read off it *)

Lemma loop_body_run (item : json) (w : world) :
  loop_body item w =
  match item_fields item with
  | Raise e => (Raise e, w)
  | Return row => writerow row w
  end.
Proof.
  unfold loop_body, item_fields, bind, lift.
  destruct (getitem item "panel"); [|reflexivity].
  destruct (getitem item "parameter"); [|reflexivity].
  destruct (getitem item "value"); reflexivity.
Qed.

(** A write to the open stream of the handler. *)
Lemma f_write_run (text bytes : string) (fresh : bool)
      (l : list (string * node)) (mk mw : bool) (cap : option nat)
      (out : list string) :
  f_write text
    (mkWorld (put SAVE_PATH (File bytes) l) mk mw cap (Some (SAVE_PATH, fresh)) out) =
  match utf_8_encode text with
  | Raise e =>
      (Raise e,
       mkWorld (put SAVE_PATH (File bytes) l) mk mw cap (Some (SAVE_PATH, false)) out)
  | Return encoded =>
      (if room_for cap (bytes ++ (if fresh then BOM else EmptyString) ++ encoded)
       then Return tt else Raise ENOSPC,
       mkWorld (put SAVE_PATH
                  (File (kept cap (bytes ++ (if fresh then BOM else EmptyString)
                                         ++ encoded))) l)
               mk mw cap (Some (SAVE_PATH, false)) out)
  end.
Proof.
  unfold f_write. cbn [stream fs].
  destruct (utf_8_encode text) as [encoded|e]; [|reflexivity].
  rewrite entry_put_same. unfold fits, stored, set_stream, set_fs.
  cbn [capacity fs may_mkdir may_write stream stdout]. now rewrite put_put.
Qed.

Lemma for_each_rows (items : list json) :
  forall bytes l mk mw cap out,
    room_for cap bytes = true ->
    for_each items loop_body
      (mkWorld (put SAVE_PATH (File bytes) l) mk mw cap (Some (SAVE_PATH, false)) out)
    = (if room_for cap (bytes ++ fst (rows_until items))
       then match snd (rows_until items) with
            | None => Return tt
            | Some e => Raise e
            end
       else Raise ENOSPC,
       mkWorld (put SAVE_PATH (File (kept cap (bytes ++ fst (rows_until items)))) l)
               mk mw cap (Some (SAVE_PATH, false)) out).
Proof.
  induction items as [|item rest IH]; intros bytes l mk mw cap out Hfit.
  - cbn [for_each rows_until fst snd]. rewrite append_nil_r, Hfit.
    now rewrite (kept_fits _ _ Hfit).
  - cbn [for_each rows_until]. unfold bind. rewrite loop_body_run.
    unfold item_error, row_of.
    destruct (item_fields item) as [row|e].
    + unfold writerow. rewrite f_write_run.
      destruct (utf_8_encode (record_text row)) as [encoded|e] eqn:Henc.
      * apply encode_returns in Henc. subst encoded. cbn [append fst snd].
        destruct (room_for cap (bytes ++ record_text row)) eqn:Hrow.
        -- rewrite (kept_fits _ _ Hrow), (IH _ _ _ _ _ _ Hrow).
           now rewrite !append_assoc.
        -- rewrite <- append_assoc. rewrite (no_room_append _ _ _ Hrow).
           now rewrite (kept_full _ _ _ Hrow).
      * cbn [fst snd]. rewrite append_nil_r, Hfit.
        now rewrite (kept_fits _ _ Hfit).
    + cbn [fst snd]. rewrite append_nil_r, Hfit.
      now rewrite (kept_fits _ _ Hfit).
Qed.

Lemma header_encodes : utf_8_encode header_line = Return header_line.
Proof. reflexivity. Qed.

Lemma save_config_eq (req : request) (w : world) :
  save_config req w = save_config_run req w.
Proof.
  unfold save_config, save_config_run, try_except.
  change (fun item : json =>
            panel <- lift (getitem item "panel") ;;
            parameter <- lift (getitem item "parameter") ;;
            value <- lift (getitem item "value") ;;
            writerow [panel; parameter; value]) with loop_body.
  unfold bind at 1. unfold bind at 2. unfold lift at 1.
  destruct (request_json req) as [data|e]; [|reflexivity].
  unfold bind at 1. unfold with_open, open_w, open_error.
  destruct (open_error_at SAVE_PATH w) as [e|]; [reflexivity|].
  destruct w as [l mk mw cap st out].
  unfold set_stream, set_fs, fits, stored.
  cbn [fs may_mkdir may_write capacity stream stdout].
  unfold bind at 1. unfold writerow at 1.
  change (record_text [JStr "Panel"; JStr "Parameter"; JStr "Value"])
    with header_line.
  rewrite f_write_run, header_encodes. cbn [append].
  change (String (ascii_of_nat 239)
            (String (ascii_of_nat 187) (String (ascii_of_nat 191) header_line)))
    with (BOM ++ header_line).
  destruct (room_for cap (BOM ++ header_line)) eqn:Hhead.
  - rewrite (kept_fits _ _ Hhead).
    unfold bind at 1. unfold lift at 1. unfold written.
    destruct (py_iter data) as [items|e]; cbn [fst snd].
    + rewrite (for_each_rows _ _ _ _ _ _ _ Hhead). rewrite !append_assoc.
      destruct (room_for cap (BOM ++ header_line ++ fst (rows_until items)))
        eqn:Hall.
      * rewrite (kept_fits _ _ Hall).
        destruct (snd (rows_until items)); reflexivity.
      * reflexivity.
    + rewrite Hhead. reflexivity.
  - assert (Hall : room_for cap (BOM ++ fst (written data)) = false).
    { unfold written. destruct (py_iter data); cbn [fst];
        [rewrite <- append_assoc; now apply no_room_append | exact Hhead]. }
    rewrite Hall.
    assert (Hkept : kept cap (BOM ++ fst (written data)) =
                    kept cap (BOM ++ header_line)).
    { unfold written. destruct (py_iter data); cbn [fst]; [|reflexivity].
      rewrite <- append_assoc. now apply kept_full. }
    rewrite Hkept. reflexivity.
Qed.

Lemma save_config_returns (req : request) (w : world) :
  fst (save_config req w) =
  Return (match failure req w with
          | None => success_response
          | Some e => error_response e
          end).
Proof.
  rewrite save_config_eq. unfold save_config_run, failure.
  destruct (request_json req) as [data|e]; [|reflexivity].
  destruct (open_error w) as [e|]; [reflexivity|].
  destruct (fits (BOM ++ fst (written data)) w); [|reflexivity].
  destruct (snd (written data)); reflexivity.
Qed.

(** ** What a call leaves in the world *)

Lemma csv_file_closed (bytes : string) (w : world) :
  csv_file (closed_with bytes w) = Some bytes.
Proof.
  unfold csv_file, read_file, closed_with. cbn [fs]. now rewrite entry_put_same.
Qed.

Lemma save_path_parent : os_path_dirname SAVE_PATH = SAVE_FOLDER.
Proof. reflexivity. Qed.

Lemma folder_entry_closed (bytes : string) (w : world) :
  entry SAVE_FOLDER (fs (closed_with bytes w)) = entry SAVE_FOLDER (fs w).
Proof.
  unfold closed_with. cbn [fs]. apply entry_put_other. discriminate.
Qed.

Lemma open_error_closed (bytes : string) (w : world) :
  open_error w = None -> open_error (closed_with bytes w) = None.
Proof.
  unfold open_error, open_error_at, parent_error.
  rewrite save_path_parent. cbn [SAVE_FOLDER].
  change "SwapDatas" with SAVE_FOLDER. rewrite folder_entry_closed.
  destruct (entry SAVE_FOLDER (fs w)) as [[| |]|]; try discriminate.
  unfold closed_with at 1. cbn [fs]. rewrite entry_put_same.
  cbn [may_write closed_with].
  destruct (entry SAVE_PATH (fs w)) as [[| |]|]; try discriminate;
    destruct (may_write w); congruence.
Qed.

Lemma open_error_after (req : request) (w : world) :
  open_error (snd (save_config req w)) = open_error w.
Proof.
  rewrite save_config_eq. unfold save_config_run.
  destruct (request_json req) as [data|e]; [|reflexivity].
  destruct (open_error w) as [e|] eqn:Hopen; [exact Hopen|].
  destruct (fits (BOM ++ fst (written data)) w);
    [destruct (snd (written data))|];
    apply (open_error_closed _ _ Hopen).
Qed.

Lemma capacity_after (req : request) (w : world) :
  capacity (snd (save_config req w)) = capacity w.
Proof.
  rewrite save_config_eq. unfold save_config_run.
  destruct (request_json req) as [data|e]; [|reflexivity].
  destruct (open_error w); [reflexivity|].
  destruct (fits (BOM ++ fst (written data)) w);
    [destruct (snd (written data))|]; reflexivity.
Qed.

(** The file after a call that got as far as opening it. *)
Lemma file_after_open (req : request) (data : json) (w : world) :
  request_json req = Return data ->
  open_error w = None ->
  csv_file (snd (save_config req w)) =
  Some (stored (BOM ++ fst (written data)) w).
Proof.
  intros Hreq Hopen. rewrite save_config_eq. unfold save_config_run.
  rewrite Hreq, Hopen.
  destruct (fits (BOM ++ fst (written data)) w) eqn:Hfit.
  - unfold stored. unfold fits in Hfit. rewrite (kept_fits _ _ Hfit).
    destruct (snd (written data)); apply csv_file_closed.
  - apply csv_file_closed.
Qed.

(** The file after a call that did not get as far. *)
Lemma file_untouched (req : request) (w : world) :
  not_deserializable req = true \/ io_error w = true ->
  csv_file (snd (save_config req w)) = csv_file w.
Proof.
  unfold not_deserializable, io_error. rewrite save_config_eq.
  unfold save_config_run.
  destruct (request_json req) as [data|e]; [|reflexivity].
  destruct (open_error w); [reflexivity|].
  intros [H|H]; discriminate H.
Qed.

(** ** Records and the rows the loop writes *)

Lemma is_record_fields (item : json) :
  is_record item = true ->
  item_fields item = Return (row_of item) /\ length (row_of item) = 3%nat.
Proof.
  unfold is_record, row_of, item_fields, has_key, getitem.
  destruct item as [| | | | | |kv]; try discriminate.
  destruct (lookup "panel" kv); [|discriminate].
  destruct (lookup "parameter" kv); [|discriminate].
  destruct (lookup "value" kv); [|discriminate].
  intros _. split; reflexivity.
Qed.

Lemma fields_is_record (item : json) (row : list json) :
  item_fields item = Return row -> is_record item = true.
Proof.
  unfold is_record, item_fields, has_key, getitem.
  destruct item as [| | | | | |kv]; try discriminate.
  destruct (lookup "panel" kv); [|discriminate].
  destruct (lookup "parameter" kv); [|discriminate].
  destruct (lookup "value" kv); [|discriminate].
  reflexivity.
Qed.

(** ** Surrogates in a record *)

Lemma surrogate_here_head (c : ascii) (a b : string) :
  starts_with_continuation b = false ->
  surrogate_here (String c (a ++ b)) = surrogate_here (String c a).
Proof.
  intros Hb. destruct a as [|d a]; [|reflexivity].
  cbn [append surrogate_here]. destruct b as [|d b]; [reflexivity|].
  cbn [starts_with_continuation] in Hb. rewrite Hb. now rewrite andb_false_r.
Qed.

Lemma has_surrogate_append (a b : string) :
  starts_with_continuation b = false ->
  has_surrogate (a ++ b) = has_surrogate a || has_surrogate b.
Proof.
  intros Hb. induction a as [|c a IH]; [reflexivity|].
  cbn [append has_surrogate]. rewrite (surrogate_here_head _ _ _ Hb), IH.
  now rewrite orb_assoc.
Qed.

Lemma surrogate_here_ascii (c : ascii) (s : string) :
  (N_of_ascii c <? 128)%N = true -> surrogate_here (String c s) = false.
Proof.
  intros H. destruct s as [|d s]; [reflexivity|]. cbn [surrogate_here].
  apply N.ltb_lt in H.
  destruct (N.eqb_spec (N_of_ascii c) 237) as [E|E]; [lia | reflexivity].
Qed.

Lemma surrogate_here_quotes (c : ascii) (r : string) :
  surrogate_here (String c (double_quotes r)) = surrogate_here (String c r).
Proof.
  destruct r as [|d r]; [reflexivity|]. cbn [double_quotes].
  destruct (Ascii.eqb d DQUOTE) eqn:E; [|reflexivity].
  apply Ascii.eqb_eq in E. subst d. cbn [surrogate_here].
  now rewrite !andb_false_r.
Qed.

Lemma has_surrogate_quotes (s : string) :
  has_surrogate (double_quotes s) = has_surrogate s.
Proof.
  induction s as [|c s IH]; [reflexivity|].
  cbn [double_quotes]. destruct (Ascii.eqb c DQUOTE) eqn:E.
  - apply Ascii.eqb_eq in E. subst c. cbn [has_surrogate].
    rewrite !(surrogate_here_ascii DQUOTE) by reflexivity. now rewrite IH.
  - cbn [has_surrogate]. now rewrite surrogate_here_quotes, IH.
Qed.

Lemma has_surrogate_join_append (f : string) :
  has_surrogate (join_append f) = has_surrogate f.
Proof.
  unfold join_append. destruct (any special f); [|reflexivity].
  cbn [has_surrogate]. rewrite (surrogate_here_ascii DQUOTE) by reflexivity.
  rewrite has_surrogate_append by reflexivity.
  rewrite has_surrogate_quotes. cbn. now rewrite orb_false_r.
Qed.

Lemma has_surrogate_concat (l : list string) :
  forallb (fun s => negb (has_surrogate s)) l = true ->
  has_surrogate (String.concat (char COMMA) l) = false.
Proof.
  induction l as [|s l IH]; [reflexivity|].
  cbn [forallb]. intros H. apply andb_true_iff in H as [Hs Hl].
  apply negb_true_iff in Hs.
  destruct l as [|t l]; [exact Hs|].
  change (String.concat (char COMMA) (s :: t :: l))
    with (s ++ String COMMA (String.concat (char COMMA) (t :: l))).
  rewrite has_surrogate_append by reflexivity. rewrite Hs.
  cbn [orb has_surrogate]. rewrite (surrogate_here_ascii COMMA) by reflexivity.
  now apply IH.
Qed.

Lemma record_text_encodable (row : list json) :
  forallb (fun v => negb (has_surrogate (field_text v))) row = true ->
  has_surrogate (record_text row) = false.
Proof.
  intros H. unfold record_text. rewrite has_surrogate_append by reflexivity.
  change (has_surrogate lineterminator) with false. rewrite orb_false_r.
  unfold record_line.
  assert (E : has_surrogate
                (String.concat (char COMMA)
                   (map (fun v => join_append (field_text v)) row)) = false).
  { apply has_surrogate_concat. rewrite forallb_forall in *.
    intros s Hs. apply in_map_iff in Hs as (v & <- & Hv).
    rewrite has_surrogate_join_append. now apply H. }
  destruct row; [exact E|].
  destruct (String.concat _ _); [reflexivity | exact E].
Qed.

(** A complete record whose fields can be encoded raises nothing. *)
Lemma item_error_none (item : json) :
  is_record item = true ->
  forallb (fun v => negb (has_surrogate (field_text v))) (row_of item) = true ->
  item_error item = None.
Proof.
  intros Hrec Henc. unfold item_error.
  destruct (is_record_fields _ Hrec) as [-> _].
  now rewrite (encode_plain _ (record_text_encodable _ Henc)).
Qed.

Lemma rows_until_prefix (good : list json) (tail : list json) :
  forallb is_record good = true ->
  encodable_fields good = true ->
  rows_until (good ++ tail) =
  (concat_all (map (fun item => record_text (row_of item)) good)
     ++ fst (rows_until tail),
   snd (rows_until tail)).
Proof.
  unfold encodable_fields.
  induction good as [|item good IH]; intros Hrec Henc.
  - simpl. now destruct (rows_until tail).
  - cbn [forallb] in Hrec, Henc.
    apply andb_true_iff in Hrec as [Hi Hg].
    apply andb_true_iff in Henc as [Hei Heg].
    cbn [app rows_until map concat_all].
    rewrite (item_error_none _ Hi Hei), (IH Hg Heg). cbn [fst snd].
    now rewrite append_assoc.
Qed.

Lemma rows_until_records (items : list json) :
  forallb is_record items = true ->
  encodable_fields items = true ->
  rows_until items =
  (concat_all (map (fun item => record_text (row_of item)) items), None).
Proof.
  intros Hrec Henc. pose proof (rows_until_prefix items [] Hrec Henc) as P.
  rewrite app_nil_r in P. rewrite P. simpl. now rewrite append_nil_r.
Qed.

(** The loop ends without an exception exactly when every item is a
    complete record whose row can be encoded. *)
Lemma rows_until_none (items : list json) :
  snd (rows_until items) = None <->
  forallb (fun item => match item_error item with
                       | None => true
                       | Some _ => false
                       end) items = true.
Proof.
  induction items as [|item rest IH]; [split; reflexivity|].
  cbn [rows_until forallb].
  destruct (item_error item); cbn [snd andb]; [split; discriminate | exact IH].
Qed.

Lemma item_error_record (item : json) :
  item_error item = None ->
  is_record item = true /\ has_surrogate (record_text (row_of item)) = false.
Proof.
  unfold item_error, row_of.
  destruct (item_fields item) as [row|e] eqn:E; [|discriminate].
  destruct (utf_8_encode (record_text row)) as [enc|e] eqn:Henc; [|discriminate].
  intros _. split; [exact (fields_is_record _ _ E)|].
  destruct (has_surrogate (record_text row)) eqn:Hs; [|reflexivity].
  unfold utf_8_encode in Henc.
  pose proof (surrogate_error_some _ 0%N Hs) as Hne.
  destruct (surrogate_error 0 (record_text row)); [discriminate | now elim Hne].
Qed.

(** What the loop wrote is the rows of the items it got through, each a
    record of three fields. *)
Lemma rows_until_rows (items : list json) :
  exists rows,
    Forall (fun row => length row = 3%nat) rows
    /\ fst (rows_until items) = concat_all (map record_text rows).
Proof.
  induction items as [|item rest (rows & Hlen & Hrows)].
  - exists []. split; [constructor | reflexivity].
  - cbn [rows_until]. destruct (item_error item) eqn:E.
    + exists []. split; [constructor | reflexivity].
    + exists (row_of item :: rows). split.
      * constructor; [|exact Hlen].
        destruct (item_error_record _ E) as [R _].
        exact (proj2 (is_record_fields _ R)).
      * cbn [fst map concat_all]. now rewrite Hrows.
Qed.

(** A save of an array of records whose text can be encoded, in a world
    where [open] succeeds and the device takes the table. *)
Lemma save_records (items : list json) (w : world) :
  forallb is_record items = true ->
  encodable_fields items = true ->
  open_error w = None ->
  fits (BOM ++ csv_table items) w = true ->
  save_config (post_json (JArr items)) w =
  succeeded (closed_with (BOM ++ csv_table items) w).
Proof.
  intros Hrec Henc Hopen Hfit. rewrite save_config_eq.
  unfold save_config_run, post_json, request_json, written. cbn [is_json body py_iter].
  rewrite Hopen, (rows_until_records _ Hrec Henc). cbn [fst snd].
  fold (csv_table items). now rewrite Hfit.
Qed.

(** A save that succeeds, and what a successful save was. *)
Lemma success_inv (req : request) (w : world) :
  fst (save_config req w) = Return success_response ->
  exists data items,
    request_json req = Return data
    /\ open_error w = None
    /\ py_iter data = Return items
    /\ forallb is_record items = true
    /\ rows_until items =
       (concat_all (map (fun item => record_text (row_of item)) items), None)
    /\ fits (BOM ++ csv_table items) w = true.
Proof.
  rewrite save_config_returns. unfold failure, written.
  destruct (request_json req) as [data|e]; [|discriminate].
  destruct (open_error w); [discriminate|].
  destruct (py_iter data) as [items|e] eqn:Hiter; cbn [fst snd].
  - destruct (fits (BOM ++ header_line ++ fst (rows_until items)) w) eqn:Hfit;
      [|discriminate].
    destruct (snd (rows_until items)) eqn:Hsnd; [discriminate|].
    intros _. exists data, items.
    assert (Hitems : forallb is_record items = true
                     /\ fst (rows_until items) =
                        concat_all (map (fun item => record_text (row_of item)) items)).
    { clear Hfit Hiter. induction items as [|item rest IH]; [now split|].
      cbn [rows_until] in Hsnd |- *.
      destruct (item_error item) eqn:E; [discriminate|].
      cbn [snd fst] in Hsnd |- *. destruct (IH Hsnd) as [Hr Ht].
      destruct (item_error_record _ E) as [R _].
      cbn [forallb map concat_all]. now rewrite R, Hr, Ht. }
    destruct Hitems as [Hrec Htext].
    repeat split; try assumption.
    + rewrite <- Htext, <- Hsnd. now destruct (rows_until items).
    + unfold csv_table. now rewrite <- Htext.
  - destruct (fits (BOM ++ header_line) w); discriminate.
Qed.

Lemma save_success (req : request) (w : world) (data : json) (items : list json) :
  request_json req = Return data ->
  open_error w = None ->
  py_iter data = Return items ->
  rows_until items =
    (concat_all (map (fun item => record_text (row_of item)) items), None) ->
  fits (BOM ++ csv_table items) w = true ->
  save_config req w = succeeded (closed_with (BOM ++ csv_table items) w).
Proof.
  intros Hreq Hopen Hiter Hrows Hfit. rewrite save_config_eq.
  unfold save_config_run, written.
  rewrite Hreq, Hopen, Hiter, Hrows. cbn [fst snd].
  fold (csv_table items). now rewrite Hfit.
Qed.

(** ** Physical lines *)


Lemma readlines_from_line (l : string) :
  forall cur rest,
    any is_eol l = false ->
    readlines_from cur (l ++ lineterminator ++ rest) =
    (cur ++ l ++ lineterminator) :: readlines_from EmptyString rest.
Proof.
  induction l as [|c l IH]; intros cur rest H.
  - reflexivity.
  - simpl in H. apply orb_false_iff in H as [Hc Hl].
    unfold is_eol in Hc. apply orb_false_iff in Hc as [Hcr Hlf].
    cbn [append readlines_from]. rewrite Hlf, Hcr.
    rewrite (IH _ _ Hl). now rewrite append_assoc.
Qed.








(** ** The reader over a text and over its lines *)

Lemma feed_app (a b : string) :
  forall rd,
    feed rd (a ++ b) =
    match feed rd a with
    | Raise e => Raise e
    | Return rd' => feed rd' b
    end.
Proof.
  induction a as [|c a IH]; intros rd; cbn [append feed]; [reflexivity|].
  destruct (parse_process_char rd (Ch c)); [apply IH | reflexivity].
Qed.

Lemma feed_snoc (cur : string) (c : ascii) (rd0 rd : reader) :
  feed rd0 cur = Return rd ->
  feed rd0 (cur ++ char c) = parse_process_char rd (Ch c).
Proof.
  intros H. rewrite feed_app, H. cbn [feed char].
  now destruct (parse_process_char rd (Ch c)).
Qed.

Lemma begun_of_snoc (cur : string) (c : ascii) : begun_of (cur ++ char c) = true.
Proof. now destruct cur. Qed.

Lemma end_line_mono (rd : reader) (k1 k2 : reader -> outcome (list (list string)))
      (records : list (list string)) :
  (forall rd' r, k1 rd' = Return r -> k2 rd' = Return r) ->
  end_line rd k1 = Return records -> end_line rd k2 = Return records.
Proof.
  intros Hk. unfold end_line.
  destruct (parse_process_char rd EOL) as [rd'|e]; [|discriminate].
  destruct (state rd'); try apply Hk.
  destruct (k1 parse_reset) as [r|e] eqn:E; [|discriminate].
  now rewrite (Hk _ _ E).
Qed.

Lemma scan_sound_len (n : nat) :
  forall s, String.length s <= n ->
  forall cur rd0 rd records,
    feed rd0 cur = Return rd ->
    scan rd (begun_of cur) s = Return records ->
    read_records rd0 (readlines_from cur s) = Return records.
Proof.
  induction n as [|n IH]; intros s Hlen cur rd0 rd records Hfeed Hscan.
  - destruct s; [|simpl in Hlen; lia].
    cbn [scan] in Hscan. cbn [readlines_from].
    destruct cur as [|a cur].
    + cbn in Hfeed. injection Hfeed as ->. exact Hscan.
    + cbn [read_records]. rewrite Hfeed. exact Hscan.
  - destruct s as [|c r].
    + cbn [scan] in Hscan. cbn [readlines_from].
      destruct cur as [|a cur].
      * cbn in Hfeed. injection Hfeed as ->. exact Hscan.
      * cbn [read_records]. rewrite Hfeed. exact Hscan.
    + cbn [String.length] in Hlen. cbn [scan] in Hscan. cbn [readlines_from].
      destruct (parse_process_char rd (Ch c)) as [rd1|e] eqn:Hc; [|discriminate].
      destruct (Ascii.eqb c LF) eqn:Elf.
      * cbn [read_records]. rewrite (feed_snoc _ _ _ _ Hfeed).
        apply Ascii.eqb_eq in Elf. subst c. rewrite Hc.
        revert Hscan. apply end_line_mono. intros rd' r0 H.
        apply (IH r ltac:(lia) EmptyString rd' rd' r0 eq_refl H).
      * destruct (Ascii.eqb c CR) eqn:Ecr.
        -- apply Ascii.eqb_eq in Ecr. subst c. destruct r as [|d r'].
           ++ cbn [read_records]. rewrite (feed_snoc _ _ _ _ Hfeed), Hc.
              exact Hscan.
           ++ cbn [String.length] in Hlen. destruct (Ascii.eqb d LF) eqn:Edlf.
              ** destruct (parse_process_char rd1 (Ch d)) as [rd2|e] eqn:Hd;
                   [|discriminate].
                 apply Ascii.eqb_eq in Edlf. subst d.
                 cbn [read_records]. rewrite feed_app, Hfeed.
                 cbn [feed lineterminator char]. rewrite Hc, Hd.
                 revert Hscan. apply end_line_mono. intros rd' r0 H.
                 apply (IH r' ltac:(lia) EmptyString rd' rd' r0 eq_refl H).
              ** cbn [read_records]. rewrite (feed_snoc _ _ _ _ Hfeed), Hc.
                 revert Hscan. apply end_line_mono. intros rd' r0 H.
                 apply (IH (String d r') ltac:(cbn [String.length]; lia)
                           EmptyString rd' rd' r0 eq_refl H).
        -- apply (IH r ltac:(lia) (cur ++ char c) rd0 rd1 records).
           ++ now rewrite (feed_snoc _ _ _ _ Hfeed).
           ++ now rewrite begun_of_snoc.
Qed.

(** What [scan] yields for a text, [csv_reader] yields for its lines. *)
Lemma scan_sound (text : string) (records : list (list string)) :
  scan parse_reset false text = Return records ->
  csv_reader (readlines text) = Return records.
Proof.
  intros H. unfold csv_reader, readlines.
  exact (scan_sound_len (String.length text) text (le_n _) EmptyString
           parse_reset parse_reset records eq_refl H).
Qed.

Lemma special_false (c : ascii) :
  special c = false ->
  Ascii.eqb c COMMA = false /\ Ascii.eqb c DQUOTE = false
  /\ Ascii.eqb c CR = false /\ Ascii.eqb c LF = false.
Proof.
  unfold special, lineterminator, char. cbn [any].
  destruct (Ascii.eqb c COMMA), (Ascii.eqb c DQUOTE), (Ascii.eqb c CR),
    (Ascii.eqb c LF); cbn; intros H; try discriminate H; repeat split.
Qed.

(** A character that ends no line is one step of the scan. *)
Lemma scan_step (rd rd1 : reader) (b : bool) (c : ascii) (r : string) :
  parse_process_char rd (Ch c) = Return rd1 ->
  Ascii.eqb c CR = false -> Ascii.eqb c LF = false ->
  scan rd b (String c r) = scan rd1 true r.
Proof.
  intros H Hcr Hlf. cbn [scan]. now rewrite H, Hlf, Hcr.
Qed.

Lemma end_line_quoted (fld : string) (fs : list string)
      (k : reader -> outcome (list (list string))) :
  end_line (mkReader IN_QUOTED_FIELD fld fs) k = k (mkReader IN_QUOTED_FIELD fld fs).
Proof. reflexivity. Qed.

(** ** The reader on what the writer wrote *)

Lemma char_count_append (a b : string) :
  char_count (a ++ b) = (char_count a + char_count b)%N.
Proof.
  induction a as [|c a IH]; cbn [append char_count]; [reflexivity|].
  rewrite IH. lia.
Qed.

(** A character is added to a field that stays within the limit. *)
Lemma add_char_ok (c : ascii) (st st0 : pstate) (fld r : string)
      (fs : list string) :
  (char_count (fld ++ String c r) <= FIELD_LIMIT)%N ->
  parse_add_char c st (mkReader st0 fld fs) =
  Return (mkReader st (fld ++ char c) fs).
Proof.
  intros H. unfold parse_add_char. cbn [field fields].
  rewrite char_count_append in H. cbn [char_count] in H.
  destruct (is_continuation c); cbn [negb andb]; [reflexivity|].
  destruct (N.leb_spec FIELD_LIMIT (char_count fld)); [lia | reflexivity].
Qed.

Lemma quoted_char (c : ascii) (fld r : string) (fs : list string) :
  Ascii.eqb c DQUOTE = false ->
  (char_count (fld ++ String c r) <= FIELD_LIMIT)%N ->
  parse_process_char (mkReader IN_QUOTED_FIELD fld fs) (Ch c) =
  Return (mkReader IN_QUOTED_FIELD (fld ++ char c) fs).
Proof.
  intros Hdq H. unfold parse_process_char. cbn [state]. rewrite Hdq.
  now apply add_char_ok with (r := r).
Qed.

Lemma quoted_quote (fld r : string) (fs : list string) :
  (char_count (fld ++ String DQUOTE r) <= FIELD_LIMIT)%N ->
  parse_process_char (mkReader QUOTE_IN_QUOTED_FIELD fld fs) (Ch DQUOTE) =
  Return (mkReader IN_QUOTED_FIELD (fld ++ char DQUOTE) fs).
Proof.
  intros H. unfold parse_process_char. cbn [state].
  change (Ascii.eqb DQUOTE DQUOTE) with true. cbn iota.
  now apply add_char_ok with (r := r).
Qed.

(** Inside quotes the reader takes every character, a doubled quote as
    one quote, until the closing quote. *)
Lemma scan_quoted_len (n : nat) :
  forall s, String.length s <= n ->
  forall fld fs b rest,
    (char_count (fld ++ s) <= FIELD_LIMIT)%N ->
    scan (mkReader IN_QUOTED_FIELD fld fs) b
         (double_quotes s ++ String DQUOTE rest) =
    scan (mkReader QUOTE_IN_QUOTED_FIELD (fld ++ s) fs) true rest.
Proof.
  assert (Hnil : forall fld fs b rest,
             scan (mkReader IN_QUOTED_FIELD fld fs) b (String DQUOTE rest) =
             scan (mkReader QUOTE_IN_QUOTED_FIELD (fld ++ EmptyString) fs) true rest).
  { intros. rewrite append_nil_r. reflexivity. }
  induction n as [|n IH]; intros s Hlen fld fs b rest Hlim.
  - destruct s; [apply Hnil | simpl in Hlen; lia].
  - destruct s as [|c r]; [apply Hnil|].
    cbn [String.length] in Hlen.
    assert (Hr : forall b',
               scan (mkReader IN_QUOTED_FIELD (fld ++ char c) fs) b'
                    (double_quotes r ++ String DQUOTE rest) =
               scan (mkReader QUOTE_IN_QUOTED_FIELD (fld ++ String c r) fs) true rest).
    { intros b'. rewrite (IH r ltac:(lia));
        rewrite append_assoc; [reflexivity | exact Hlim]. }
    cbn [double_quotes]. destruct (Ascii.eqb c DQUOTE) eqn:Edq.
    + apply Ascii.eqb_eq in Edq. subst c. cbn [append].
      rewrite (scan_step (mkReader IN_QUOTED_FIELD fld fs)
                 (mkReader QUOTE_IN_QUOTED_FIELD fld fs) b DQUOTE _
                 eq_refl eq_refl eq_refl).
      rewrite (scan_step (mkReader QUOTE_IN_QUOTED_FIELD fld fs)
                 (mkReader IN_QUOTED_FIELD (fld ++ char DQUOTE) fs) true DQUOTE _
                 (quoted_quote fld r fs Hlim) eq_refl eq_refl).
      apply Hr.
    + cbn [append].
      pose proof (quoted_char c fld r fs Edq Hlim) as Hc.
      destruct (Ascii.eqb c LF) eqn:Elf.
      * cbn [scan]. rewrite Hc, Elf, end_line_quoted. apply Hr.
      * destruct (Ascii.eqb c CR) eqn:Ecr.
        -- cbn [scan]. rewrite Hc, Elf, Ecr.
           destruct r as [|d r'].
           ++ cbn [double_quotes append].
              change (Ascii.eqb DQUOTE LF) with false.
              rewrite end_line_quoted. apply (Hr false).
           ++ cbn [String.length] in Hlen.
              destruct (Ascii.eqb d DQUOTE) eqn:Eddq.
              ** pose proof (Hr false) as Hr'. cbn [double_quotes] in Hr' |- *.
                 rewrite Eddq in Hr' |- *. cbn [append] in Hr' |- *.
                 change (Ascii.eqb DQUOTE LF) with false.
                 rewrite end_line_quoted. exact Hr'.
              ** destruct (Ascii.eqb d LF) eqn:Edlf.
                 --- cbn [double_quotes]. rewrite Eddq. cbn [append]. rewrite Edlf.
                     assert (Hlim' : (char_count ((fld ++ char c) ++ String d r')
                                      <= FIELD_LIMIT)%N)
                       by (now rewrite append_assoc).
                     rewrite (quoted_char d (fld ++ char c) r' fs Eddq Hlim').
                     rewrite end_line_quoted.
                     rewrite (IH r' ltac:(lia));
                       rewrite !append_assoc; [reflexivity | exact Hlim].
                 --- pose proof (Hr false) as Hr'. cbn [double_quotes] in Hr' |- *.
                     rewrite Eddq in Hr' |- *. cbn [append] in Hr' |- *.
                     rewrite Edlf, end_line_quoted. exact Hr'.
        -- rewrite (scan_step _ _ _ _ _ Hc Ecr Elf). apply Hr.
Qed.

(** Outside quotes the reader takes the characters of a field that needs
    no quoting. *)
Lemma scan_plain (s : string) :
  forall fld fs b rest,
    any special s = false ->
    (char_count (fld ++ s) <= FIELD_LIMIT)%N ->
    scan (mkReader IN_FIELD fld fs) b (s ++ rest) =
    scan (mkReader IN_FIELD (fld ++ s) fs) (b || begun_of s) rest.
Proof.
  induction s as [|c r IH]; intros fld fs b rest H Hlim.
  - cbn [append begun_of]. now rewrite append_nil_r, orb_false_r.
  - cbn [any] in H. apply orb_false_iff in H as [Hc Hr].
    destruct (special_false _ Hc) as (Hcomma & Hdq & Hcr & Hlf).
    cbn [append begun_of]. rewrite orb_true_r.
    rewrite (scan_step _ (mkReader IN_FIELD (fld ++ char c) fs) _ _ _); trivial.
    + rewrite (IH _ _ _ _ Hr); [|now rewrite append_assoc].
      cbn [orb]. now rewrite append_assoc.
    + unfold parse_process_char, is_eol. cbn [state]. rewrite Hcr, Hlf, Hcomma.
      now apply add_char_ok with (r := r).
Qed.

Lemma start_quote (st : pstate) (fs : list string) :
  st = START_RECORD \/ st = START_FIELD ->
  parse_process_char (mkReader st EmptyString fs) (Ch DQUOTE) =
  Return (mkReader IN_QUOTED_FIELD EmptyString fs).
Proof. intros [-> | ->]; reflexivity. Qed.

Lemma start_comma (st : pstate) (fs : list string) :
  st = START_RECORD \/ st = START_FIELD ->
  parse_process_char (mkReader st EmptyString fs) (Ch COMMA) =
  Return (mkReader START_FIELD EmptyString (fs ++ [EmptyString])).
Proof. intros [-> | ->]; reflexivity. Qed.

Lemma start_plain (st : pstate) (fs : list string) (c : ascii) :
  st = START_RECORD \/ st = START_FIELD ->
  special c = false ->
  parse_process_char (mkReader st EmptyString fs) (Ch c) =
  Return (mkReader IN_FIELD (char c) fs).
Proof.
  intros Hst Hc. destruct (special_false _ Hc) as (Hcomma & Hdq & Hcr & Hlf).
  destruct Hst as [-> | ->]; unfold parse_process_char, start_field, is_eol;
    cbn [state]; rewrite Hcr, Hlf, Hdq, Hcomma; cbn [orb];
    unfold parse_add_char; cbn [field fields char_count];
    now rewrite andb_false_r.
Qed.

Lemma scan_field (st : pstate) (f : string) (fs : list string) (b : bool)
      (rest : string) :
  st = START_RECORD \/ st = START_FIELD ->
  (char_count f <= FIELD_LIMIT)%N ->
  scan (mkReader st EmptyString fs) b (join_append f ++ rest) =
  scan (fst (after_field st f fs b)) (snd (after_field st f fs b)) rest.
Proof.
  intros Hst Hlim. unfold join_append, after_field.
  destruct (any special f) eqn:Hsp; cbn [fst snd].
  - cbn [append]. rewrite append_assoc. cbn [append char].
    rewrite (scan_step _ _ _ _ _ (start_quote st fs Hst) eq_refl eq_refl).
    now rewrite (scan_quoted_len (String.length f) f (le_n _)).
  - destruct f as [|c r]; [reflexivity|].
    cbn [any] in Hsp. apply orb_false_iff in Hsp as [Hc Hr].
    destruct (special_false _ Hc) as (_ & _ & Hcr & Hlf).
    cbn [append]. rewrite (scan_step _ _ _ _ _ (start_plain st fs c Hst Hc) Hcr Hlf).
    now rewrite (scan_plain r _ _ _ _ Hr).
Qed.

Lemma scan_field_comma (st : pstate) (f : string) (fs : list string) (b : bool)
      (rest : string) :
  st = START_RECORD \/ st = START_FIELD ->
  (char_count f <= FIELD_LIMIT)%N ->
  scan (mkReader st EmptyString fs) b (join_append f ++ String COMMA rest) =
  scan (mkReader START_FIELD EmptyString (fs ++ [f])) true rest.
Proof.
  intros Hst Hlim. rewrite (scan_field st f fs b _ Hst Hlim). unfold after_field.
  destruct (any special f); cbn [fst snd]; [reflexivity|].
  destruct f; [|reflexivity].
  now rewrite (scan_step _ _ _ _ _ (start_comma st fs Hst) eq_refl eq_refl).
Qed.

(** CR LF where a record ends. *)
Lemma scan_crlf (rd : reader) (fld : string) (fs : list string) (b : bool)
      (rest : string) :
  parse_process_char rd (Ch CR) = Return (mkReader EAT_CRNL fld fs) ->
  scan rd b (lineterminator ++ rest) =
  and_then fs (scan parse_reset false rest).
Proof.
  intros H. cbn [lineterminator char append scan]. rewrite H.
  change (Ascii.eqb CR LF) with false. change (Ascii.eqb CR CR) with true.
  change (Ascii.eqb LF LF) with true. cbn iota.
  unfold end_line, parse_process_char. cbn.
  now destruct (scan parse_reset false rest).
Qed.

Lemma scan_field_crlf (st : pstate) (f : string) (fs : list string) (b : bool)
      (rest : string) :
  st = START_FIELD \/ (st = START_RECORD /\ f <> EmptyString) ->
  (char_count f <= FIELD_LIMIT)%N ->
  scan (mkReader st EmptyString fs) b (join_append f ++ lineterminator ++ rest) =
  and_then (fs ++ [f]) (scan parse_reset false rest).
Proof.
  intros Hst Hlim.
  assert (Hst' : st = START_RECORD \/ st = START_FIELD)
    by (destruct Hst as [->|[-> _]]; [now right | now left]).
  rewrite (scan_field st f fs b _ Hst' Hlim). unfold after_field.
  destruct (any special f); cbn [fst snd];
    [now apply scan_crlf with (fld := EmptyString)|].
  destruct f as [|c r].
  - destruct Hst as [->|[_ F]]; [|now elim F].
    now apply scan_crlf with (fld := EmptyString).
  - now apply scan_crlf with (fld := EmptyString).
Qed.

Lemma scan_fields (l : list string) :
  forall st fs b rest,
    l <> [] ->
    st = START_FIELD \/ (st = START_RECORD /\ l <> [EmptyString]) ->
    Forall (fun f => (char_count f <= FIELD_LIMIT)%N) l ->
    scan (mkReader st EmptyString fs) b
         (String.concat (char COMMA) (map join_append l) ++ lineterminator ++ rest) =
    and_then (fs ++ l) (scan parse_reset false rest).
Proof.
  induction l as [|f l IH]; intros st fs b rest Hne Hst Hlim; [now elim Hne|].
  apply Forall_cons_iff in Hlim as [Hf Hl].
  destruct l as [|g l].
  - cbn [map String.concat]. apply scan_field_crlf; [|exact Hf].
    destruct Hst as [->|[-> F]]; [now left | right].
    split; [reflexivity|]. intros ->. now elim F.
  - change (String.concat (char COMMA) (map join_append (f :: g :: l)))
      with (join_append f ++ char COMMA
              ++ String.concat (char COMMA) (map join_append (g :: l))).
    rewrite append_assoc. cbn [char append].
    rewrite scan_field_comma;
      [|destruct Hst as [->|[-> _]]; [now right | now left] | exact Hf].
    rewrite IH; [|discriminate | now left | exact Hl].
    now rewrite <- app_assoc.
Qed.

Lemma join_append_empty (f : string) : join_append f = EmptyString -> f = EmptyString.
Proof.
  unfold join_append. destruct (any special f); [discriminate | trivial].
Qed.

Lemma concat_comma_empty (l : list string) :
  l <> [] -> String.concat (char COMMA) l = EmptyString -> l = [EmptyString].
Proof.
  destruct l as [|a [|b l]]; intros Hne H.
  - now elim Hne.
  - cbn in H. now subst a.
  - change (String.concat (char COMMA) (a :: b :: l))
      with (a ++ char COMMA ++ String.concat (char COMMA) (b :: l)) in H.
    destruct a; discriminate H.
Qed.

(** The reader gets back the fields of a record the writer wrote. *)
Lemma scan_record (row : list json) (rest : string) :
  row_within_limit row = true ->
  scan parse_reset false (record_text row ++ rest) =
  and_then (map field_text row) (scan parse_reset false rest).
Proof.
  intros Hlim.
  assert (Hall : Forall (fun f => (char_count f <= FIELD_LIMIT)%N)
                        (map field_text row)).
  { apply Forall_forall. intros f Hf. apply in_map_iff in Hf as (v & <- & Hv).
    unfold row_within_limit in Hlim. rewrite forallb_forall in Hlim.
    now apply N.leb_le, Hlim. }
  clear Hlim.
  unfold record_text, record_line. rewrite <- (map_map field_text join_append).
  destruct row as [|v row].
  - cbn [map String.concat]. now apply scan_crlf with (fld := EmptyString).
  - set (l := map field_text (v :: row)) in *.
    assert (Hne : l <> []) by discriminate.
    destruct (String.concat (char COMMA) (map join_append l)) as [|a s] eqn:E.
    + assert (Hl : map join_append l = [EmptyString]).
      { apply concat_comma_empty; [|exact E]. subst l. discriminate. }
      destruct l as [|f [|g l]]; try discriminate Hl.
      injection Hl as Hf. apply join_append_empty in Hf. subst f.
      rewrite append_assoc. cbn [char append]. unfold parse_reset.
      rewrite (scan_step _ _ _ _ _ (start_quote START_RECORD [] (or_introl eq_refl))
                 eq_refl eq_refl).
      rewrite (scan_step (mkReader IN_QUOTED_FIELD EmptyString [])
                 (mkReader QUOTE_IN_QUOTED_FIELD EmptyString []) true DQUOTE _
                 eq_refl eq_refl eq_refl).
      now apply scan_crlf with (fld := EmptyString).
    + rewrite <- E, append_assoc. unfold parse_reset.
      apply (scan_fields l START_RECORD [] false rest Hne); [|exact Hall].
      right. split; [reflexivity|]. intros Hl. rewrite Hl in E. discriminate E.
Qed.

Lemma scan_records (rows : list (list json)) :
  forallb row_within_limit rows = true ->
  scan parse_reset false (concat_all (map record_text rows)) =
  Return (map (map field_text) rows).
Proof.
  induction rows as [|row rows IH]; [reflexivity|].
  cbn [forallb]. intros H. apply andb_true_iff in H as [Hr Hrs].
  cbn [map concat_all]. now rewrite (scan_record _ _ Hr), (IH Hrs).
Qed.

(** Reading back a file of rows gives their fields as text. *)
Lemma read_csv_rows (rows : list (list json)) :
  forallb row_within_limit rows = true ->
  read_csv (BOM ++ concat_all (map record_text rows)) =
  Return (map (map field_text) rows).
Proof.
  intros H. unfold read_csv.
  change (decode_utf8_sig (BOM ++ concat_all (map record_text rows)))
    with (concat_all (map record_text rows)).
  now apply scan_sound, scan_records.
Qed.

(** The table of items within the limit reads back as the header and their
    texts. *)
Lemma read_csv_table (items : list json) :
  within_limit items = true ->
  read_csv (BOM ++ csv_table items) =
  Return (["Panel"; "Parameter"; "Value"] :: texts items).
Proof.
  intros H.
  pose proof (read_csv_rows
                ([JStr "Panel"; JStr "Parameter"; JStr "Value"]
                   :: map row_of items)) as R.
  cbn [map concat_all] in R. rewrite !map_map in R. apply R.
  cbn [forallb]. apply andb_true_iff. split; [reflexivity|].
  rewrite forallb_forall. intros row Hrow. apply in_map_iff in Hrow as (item & <- & Hitem).
  unfold within_limit in H. rewrite forallb_forall in H. now apply H.
Qed.

(** ** The reader over a text and over its lines, errors included *)

Lemma readlines_from_head (s : string) :
  forall cur,
    cur <> EmptyString ->
    exists x rest, readlines_from cur s = (cur ++ x) :: rest.
Proof.
  induction s as [|c r IH]; intros cur Hcur.
  - exists EmptyString, []. rewrite append_nil_r. now destruct cur.
  - cbn [readlines_from]. destruct (Ascii.eqb c LF); [now eexists _, _|].
    destruct (Ascii.eqb c CR).
    + destruct r as [|d r']; [now eexists _, _|].
      destruct (Ascii.eqb d LF); now eexists _, _.
    + destruct (IH (cur ++ char c)) as (x & rest & ->); [now destruct cur|].
      exists (char c ++ x), rest. now rewrite append_assoc.
Qed.

(** An error on the line begun is the error of the reader. *)
Lemma read_records_raise (rd0 : reader) (cur s : string) (e : exn) :
  feed rd0 cur = Raise e ->
  read_records rd0 (readlines_from cur s) = Raise e.
Proof.
  intros H.
  assert (Hcur : cur <> EmptyString) by (intros ->; discriminate H).
  destruct (readlines_from_head s cur Hcur) as (x & rest & ->).
  cbn [read_records]. now rewrite feed_app, H.
Qed.

Lemma end_line_ext (rd : reader) (k1 k2 : reader -> outcome (list (list string))) :
  (forall rd', k1 rd' = k2 rd') -> end_line rd k1 = end_line rd k2.
Proof.
  intros Hk. unfold end_line.
  destruct (parse_process_char rd EOL) as [rd'|e]; [|reflexivity].
  now rewrite !Hk.
Qed.

Lemma scan_eq_len (n : nat) :
  forall s, String.length s <= n ->
  forall cur rd0 rd,
    feed rd0 cur = Return rd ->
    read_records rd0 (readlines_from cur s) = scan rd (begun_of cur) s.
Proof.
  assert (Hend : forall cur rd0 rd,
             feed rd0 cur = Return rd ->
             read_records rd0 (readlines_from cur EmptyString) =
             scan rd (begun_of cur) EmptyString).
  { intros cur rd0 rd Hfeed. cbn [scan readlines_from]. destruct cur as [|a cur].
    - cbn in Hfeed. now injection Hfeed as ->.
    - cbn [read_records begun_of]. now rewrite Hfeed. }
  induction n as [|n IH]; intros s Hlen cur rd0 rd Hfeed.
  - destruct s; [now apply Hend | simpl in Hlen; lia].
  - destruct s as [|c r]; [now apply Hend|].
    cbn [String.length] in Hlen. cbn [scan readlines_from].
    destruct (Ascii.eqb c LF) eqn:Elf.
    + apply Ascii.eqb_eq in Elf. subst c.
      cbn [read_records]. rewrite (feed_snoc _ _ _ _ Hfeed).
      destruct (parse_process_char rd (Ch LF)) as [rd1|e]; [|reflexivity].
      apply end_line_ext. intros rd'.
      apply (IH r ltac:(lia) EmptyString rd' rd' eq_refl).
    + destruct (Ascii.eqb c CR) eqn:Ecr.
      * apply Ascii.eqb_eq in Ecr. subst c. destruct r as [|d r'].
        -- cbn [read_records]. rewrite (feed_snoc _ _ _ _ Hfeed).
           now destruct (parse_process_char rd (Ch CR)).
        -- cbn [String.length] in Hlen. destruct (Ascii.eqb d LF) eqn:Edlf.
           ++ apply Ascii.eqb_eq in Edlf. subst d.
              cbn [read_records]. rewrite feed_app, Hfeed.
              cbn [feed lineterminator char].
              destruct (parse_process_char rd (Ch CR)) as [rd1|e]; [|reflexivity].
              destruct (parse_process_char rd1 (Ch LF)) as [rd2|e]; [|reflexivity].
              apply end_line_ext. intros rd'.
              apply (IH r' ltac:(lia) EmptyString rd' rd' eq_refl).
           ++ cbn [read_records]. rewrite (feed_snoc _ _ _ _ Hfeed).
              destruct (parse_process_char rd (Ch CR)) as [rd1|e]; [|reflexivity].
              apply end_line_ext. intros rd'.
              apply (IH (String d r') ltac:(cbn [String.length]; lia)
                        EmptyString rd' rd' eq_refl).
      * destruct (parse_process_char rd (Ch c)) as [rd1|e] eqn:Hc.
        -- rewrite <- (begun_of_snoc cur c).
           apply (IH r ltac:(lia) (cur ++ char c) rd0 rd1).
           now rewrite (feed_snoc _ _ _ _ Hfeed).
        -- apply read_records_raise. now rewrite (feed_snoc _ _ _ _ Hfeed).
Qed.

(** [read_csv] is the scan of the decoded text. *)
Lemma read_csv_scan (bytes : string) :
  read_csv bytes = scan parse_reset false (decode_utf8_sig bytes).
Proof.
  unfold read_csv, csv_reader, readlines.
  exact (scan_eq_len (String.length (decode_utf8_sig bytes)) _ (le_n _)
           EmptyString parse_reset parse_reset eq_refl).
Qed.

(** ** A field over the limit *)

Lemma scan_plain_over (s : string) :
  forall fld fs b rest,
    any special s = false ->
    (char_count fld <= FIELD_LIMIT)%N ->
    (FIELD_LIMIT < char_count (fld ++ s))%N ->
    scan (mkReader IN_FIELD fld fs) b (s ++ rest) =
    Raise (CsvError "field larger than field limit (131072)").
Proof.
  induction s as [|c r IH]; intros fld fs b rest H Hfld Hover.
  - rewrite append_nil_r in Hover. lia.
  - cbn [any] in H. apply orb_false_iff in H as [Hc Hr].
    destruct (special_false _ Hc) as (Hcomma & Hdq & Hcr & Hlf).
    cbn [append scan].
    unfold parse_process_char, is_eol. cbn [state]. rewrite Hcr, Hlf, Hcomma.
    cbn [orb]. unfold parse_add_char. cbn [field fields].
    destruct (negb (is_continuation c) && (FIELD_LIMIT <=? char_count fld)%N)
      eqn:E; [reflexivity|].
    apply (IH (fld ++ char c) fs true rest Hr).
    + rewrite char_count_append. cbn [char char_count].
      apply andb_false_iff in E as [E|E].
      * apply negb_false_iff in E. rewrite E. lia.
      * apply N.leb_gt in E. destruct (is_continuation c); lia.
    + now rewrite append_assoc.
Qed.

Lemma scan_start_over (f rest : string) :
  any special f = false ->
  (FIELD_LIMIT < char_count f)%N ->
  scan parse_reset false (f ++ rest) =
  Raise (CsvError "field larger than field limit (131072)").
Proof.
  intros Hf Hover. destruct f as [|c r]; [cbn in Hover; lia|].
  cbn [any] in Hf. apply orb_false_iff in Hf as [Hc Hr].
  destruct (special_false _ Hc) as (Hcomma & Hdq & Hcr & Hlf).
  cbn [append]. unfold parse_reset.
  rewrite (scan_step _ _ _ _ _ (start_plain START_RECORD [] c (or_introl eq_refl) Hc)
             Hcr Hlf).
  apply scan_plain_over; [exact Hr | |exact Hover].
  cbn [char char_count]. unfold FIELD_LIMIT. destruct (is_continuation c); lia.
Qed.

Lemma scan_rows_then (rows : list (list json)) (rest : string) :
  forallb row_within_limit rows = true ->
  scan parse_reset false (concat_all (map record_text rows) ++ rest) =
  match scan parse_reset false rest with
  | Return records => Return (map (map field_text) rows ++ records)%list
  | Raise e => Raise e
  end.
Proof.
  induction rows as [|row rows IH]; intros H.
  - cbn [map concat_all append app]. now destruct (scan parse_reset false rest).
  - cbn [forallb] in H. apply andb_true_iff in H as [Hr Hrs].
    cbn [map concat_all]. rewrite append_assoc, (scan_record _ _ Hr), (IH Hrs).
    now destruct (scan parse_reset false rest).
Qed.

(** ** Which items the loop gets through *)

Lemma has_surrogate_concat_eq (l : list string) :
  has_surrogate (String.concat (char COMMA) l) = existsb has_surrogate l.
Proof.
  induction l as [|s l IH]; [reflexivity|].
  destruct l as [|t l]; [cbn; now rewrite orb_false_r|].
  change (String.concat (char COMMA) (s :: t :: l))
    with (s ++ String COMMA (String.concat (char COMMA) (t :: l))).
  rewrite has_surrogate_append by reflexivity.
  cbn [has_surrogate]. rewrite (surrogate_here_ascii COMMA) by reflexivity.
  cbn [orb]. now rewrite IH.
Qed.

Lemma has_surrogate_record (row : list json) :
  has_surrogate (record_text row) =
  existsb (fun v => has_surrogate (field_text v)) row.
Proof.
  unfold record_text. rewrite has_surrogate_append by reflexivity.
  change (has_surrogate lineterminator) with false. rewrite orb_false_r.
  assert (E : has_surrogate
                (String.concat (char COMMA)
                   (map (fun v => join_append (field_text v)) row)) =
              existsb (fun v => has_surrogate (field_text v)) row).
  { rewrite has_surrogate_concat_eq. induction row as [|v row IH]; [reflexivity|].
    cbn [map existsb]. now rewrite has_surrogate_join_append, IH. }
  unfold record_line. destruct row as [|v row]; [exact E|].
  destruct (String.concat _ _); [|exact E].
  rewrite <- E. reflexivity.
Qed.

Lemma existsb_false_forallb {A} (p : A -> bool) (l : list A) :
  existsb p l = false <-> forallb (fun x => negb (p x)) l = true.
Proof.
  induction l as [|x l IH]; [split; reflexivity|].
  cbn [existsb forallb]. rewrite orb_false_iff, andb_true_iff, negb_true_iff.
  now rewrite IH.
Qed.

(** An item raises nothing exactly when it is a complete record whose
    fields can be encoded. *)
Lemma item_ok_iff (item : json) :
  item_error item = None <->
  is_record item = true
  /\ forallb (fun v => negb (has_surrogate (field_text v))) (row_of item) = true.
Proof.
  split.
  - intros H. destruct (item_error_record _ H) as [R S]. split; [exact R|].
    rewrite has_surrogate_record in S. now apply existsb_false_forallb.
  - intros [R S]. now apply item_error_none.
Qed.

Lemma items_ok_iff (items : list json) :
  forallb (fun item => match item_error item with
                       | None => true
                       | Some _ => false
                       end) items = true <->
  forallb is_record items = true /\ encodable_fields items = true.
Proof.
  unfold encodable_fields.
  induction items as [|item rest IH]; [split; [split|]; reflexivity|].
  cbn [forallb]. rewrite !andb_true_iff, IH.
  destruct (item_error item) eqn:E.
  - split; [intros [F _]; discriminate F|].
    intros [[R Rs] [S Ss]].
    assert (item_error item = None) by (now apply item_ok_iff).
    congruence.
  - apply item_ok_iff in E as [R S]. rewrite R, S. tauto.
Qed.

(** When the loop ends in an exception, it is that of the first item that
    is not a complete record with fields that can be encoded. *)
Lemma rows_until_some (items : list json) (e : exn) :
  snd (rows_until items) = Some e ->
  exists good bad rest,
    items = (good ++ bad :: rest)%list
    /\ forallb is_record good = true
    /\ encodable_fields good = true
    /\ item_error bad = Some e.
Proof.
  induction items as [|item items IH]; [discriminate|].
  cbn [rows_until]. destruct (item_error item) as [e'|] eqn:E; cbn [snd].
  - intros H. injection H as ->. exists [], item, items. now repeat split.
  - intros H. destruct (IH H) as (good & bad & rest & -> & Hr & He & Hb).
    apply item_ok_iff in E as [R S].
    exists (item :: good), bad, rest.
    unfold encodable_fields in *. cbn [forallb]. rewrite R, S, Hr, He.
    now repeat split.
Qed.


(** ** Runs of the server *)

Lemma disk_after (req : request) (w : world) :
  disk (snd (save_config req w)) = disk w.
Proof.
  rewrite save_config_eq. unfold save_config_run.
  assert (H : forall bytes, disk (closed_with bytes w) = disk w).
  { intros bytes. unfold disk. now rewrite folder_entry_closed. }
  destruct (request_json req) as [data|e]; [|reflexivity].
  destruct (open_error w); [reflexivity|].
  destruct (fits (BOM ++ fst (written data)) w);
    [destruct (snd (written data))|]; apply H.
Qed.

Lemma may_write_after (req : request) (w : world) :
  may_write (snd (save_config req w)) = may_write w.
Proof.
  rewrite save_config_eq. unfold save_config_run.
  destruct (request_json req) as [data|e]; [|reflexivity].
  destruct (open_error w); [reflexivity|].
  destruct (fits (BOM ++ fst (written data)) w);
    [destruct (snd (written data))|]; reflexivity.
Qed.

Lemma open_error_serve (reqs : list request) :
  forall w, open_error (serve reqs w) = open_error w.
Proof.
  induction reqs as [|req reqs IH]; intros w; [reflexivity|].
  cbn [serve]. now rewrite IH, open_error_after.
Qed.

Lemma capacity_serve (reqs : list request) :
  forall w, capacity (serve reqs w) = capacity w.
Proof.
  induction reqs as [|req reqs IH]; intros w; [reflexivity|].
  cbn [serve]. now rewrite IH, capacity_after.
Qed.


Lemma serve_app (a b : list request) :
  forall w, serve (a ++ b) w = serve b (serve a w).
Proof.
  induction a as [|req a IH]; intros w; [reflexivity|].
  cbn [app serve]. apply IH.
Qed.

(** The first physical line of a file that holds a table. *)
Lemma table_first_line (rows : list (list json)) :
  exists rest, file_lines (table_bytes rows) = "Panel,Parameter,Value" :: rest.
Proof.
  unfold file_lines, table_bytes.
  change (decode_utf8_sig (BOM ++ header_line ++ concat_all (map record_text rows)))
    with (header_line ++ concat_all (map record_text rows)).
  unfold readlines, header_line, record_text. rewrite append_assoc.
  rewrite readlines_from_line by reflexivity.
  eexists. cbn [map]. reflexivity.
Qed.

(** ** Loading *)

Lemma makedirs_save_folder : os_makedirs SAVE_FOLDER = os_mkdir SAVE_FOLDER.
Proof. reflexivity. Qed.

(** The statements at module level, by what lies at the path of the
    folder. *)
Lemma module_init_run (w : world) :
  module_init w =
  match disk w with
  | Folder | NotAFolder => (Return tt, w)
  | DanglingLink => (Raise (FileExistsError SAVE_FOLDER), w)
  | NoFolder =>
      if may_mkdir w then (Return tt, set_fs (put SAVE_FOLDER Dir (fs w)) w)
      else (Raise (PermissionError SAVE_FOLDER), w)
  end.
Proof.
  unfold module_init, bind, os_path_exists, disk. rewrite makedirs_save_folder.
  unfold os_mkdir, ret, parent_error.
  change (os_path_dirname SAVE_FOLDER) with EmptyString. cbn iota.
  destruct (entry SAVE_FOLDER (fs w)) as [[| |]|] eqn:E; cbn beta iota delta [negb];
    rewrite ?E; reflexivity.
Qed.

(** ** Opening the file *)




(** ** The numeral of an integer *)

Lemma digits_plain (d : Decimal.uint) :
  any special (NilEmpty.string_of_uint d) = false.
Proof.
  induction d; cbn [NilEmpty.string_of_uint any]; try rewrite IHd; reflexivity.
Qed.

Lemma str_int_plain (n : Z) : any special (str_int n) = false.
Proof.
  unfold str_int, NilZero.string_of_int, NilZero.string_of_uint.
  destruct (Z.to_int n) as [d|d]; destruct d;
    cbn [any]; rewrite ?digits_plain; reflexivity.
Qed.

(** The numeral, read as a decimal, is the integer. *)
Lemma str_int_parses (n : Z) :
  option_map Z.of_int (NilZero.int_of_string (str_int n)) = Some n.
Proof.
  assert (Hnn : Z.to_int n <> Decimal.Pos Decimal.Nil
                /\ Z.to_int n <> Decimal.Neg Decimal.Nil).
  { destruct n as [|p|p]; cbn; split; try discriminate;
      intros H; injection H as H; now apply Unsigned.to_uint_nonnil in H. }
  unfold str_int. rewrite (NilZero.isi _ (proj1 Hnn) (proj2 Hnn)).
  cbn [option_map]. now rewrite DecimalZ.of_to.
Qed.

Lemma str_int_inj (n m : Z) : str_int n = str_int m -> n = m.
Proof.
  intros H. pose proof (str_int_parses n) as Pn. rewrite H, str_int_parses in Pn.
  congruence.
Qed.

(** * The properties of the specification *)




(** C8.  Saving the empty array, in a world where the file can be opened
    and the device takes the header, succeeds and leaves a file that holds
    the header row and nothing else. *)
Theorem save_empty_array (w : world) :
  open_error w = None ->
  fits (BOM ++ "Panel,Parameter,Value" ++ lineterminator) w = true ->
  fst (save_config (post_json (JArr [])) w) = Return success_response
  /\ csv_file (snd (save_config (post_json (JArr [])) w)) =
     Some (BOM ++ "Panel,Parameter,Value" ++ lineterminator)
  /\ file_lines (BOM ++ "Panel,Parameter,Value" ++ lineterminator) =
     ["Panel,Parameter,Value"].
Proof.
  intros Hopen Hfit. rewrite (save_records [] w eq_refl eq_refl Hopen Hfit).
  split; [reflexivity|]. split; [apply csv_file_closed | reflexivity].
Qed.

Lemma save_empty_array_witness :
  open_error started_world = None
  /\ csv_file (snd (save_config (post_json (JArr [])) started_world)) =
     Some (BOM ++ "Panel,Parameter,Value" ++ lineterminator).
Proof.
  split; [reflexivity|].
  exact (proj1 (proj2 (save_empty_array started_world eq_refl eq_refl))).
Defined.



(** C2, as amended.  Every call returns a response.  It is the success
    response, status 200 with the message Saved to and the destination
    path, when no exception is raised, and otherwise the error response,
    status 500 with the text of the exception as its message, whatever the
    kind of the exception.  No exception is raised exactly when the body
    deserialises, the file can be opened, the deserialised value can be
    iterated, each of its items is an object that contains the keys panel,
    parameter and value, the text of every field can be encoded as UTF-8
    and the device takes the table.  The exception of a failed call is
    that of the deserialisation, that of the open, that of the iteration,
    that of the first item that is not such a record, or the error of the
    device. *)
Theorem save_config_response (req : request) (w : world) :
  fst (save_config req w) =
  Return (match failure req w with
          | None => success_response
          | Some e => error_response e
          end)
  /\ status_code success_response = 200%Z
  /\ (forall e, status_code (error_response e) = 500%Z
                /\ resp_json (error_response e) =
                   JObj [("status", JStr "error"); ("message", JStr (str_exn e))])
  /\ (failure req w = None <->
      exists data items,
        request_json req = Return data
        /\ open_error w = None
        /\ py_iter data = Return items
        /\ forallb is_record items = true
        /\ encodable_fields items = true
        /\ fits (BOM ++ csv_table items) w = true)
  /\ (forall e,
         failure req w = Some e ->
         request_json req = Raise e
         \/ exists data,
              request_json req = Return data
              /\ (open_error w = Some e
                  \/ py_iter data = Raise e
                  \/ e = ENOSPC
                  \/ exists good bad rest,
                       py_iter data = Return (good ++ bad :: rest)%list
                       /\ forallb is_record good = true
                       /\ encodable_fields good = true
                       /\ item_error bad = Some e)).
Proof.
  split; [apply save_config_returns|].
  split; [reflexivity|]. split; [intros e; split; reflexivity|].
  unfold failure, written. split; [split|].
  - destruct (request_json req) as [data|e]; [|discriminate].
    destruct (open_error w); [discriminate|].
    destruct (py_iter data) as [items|e] eqn:Hiter; cbn [fst snd];
      [|destruct (fits (BOM ++ header_line) w); discriminate].
    destruct (fits (BOM ++ header_line ++ fst (rows_until items)) w) eqn:Hfit;
      [|discriminate].
    intros H. apply rows_until_none, items_ok_iff in H as [Hrec Henc].
    exists data, items.
    split; [reflexivity|]. split; [reflexivity|]. split; [exact Hiter|].
    split; [exact Hrec|]. split; [exact Henc|].
    unfold csv_table. rewrite (rows_until_records _ Hrec Henc) in Hfit.
    exact Hfit.
  - intros (data & items & -> & -> & Hiter & Hrec & Henc & Hfit).
    rewrite Hiter, (rows_until_records _ Hrec Henc). cbn [fst snd].
    fold (csv_table items). now rewrite Hfit.
  - intros e. destruct (request_json req) as [data|e0];
      [|intros H; injection H as ->; now left].
    intros H. right. exists data. split; [reflexivity|].
    destruct (open_error w) as [e1|]; [left; exact H|].
    destruct (py_iter data) as [items|e2]; cbn [fst snd] in H.
    + destruct (fits (BOM ++ header_line ++ fst (rows_until items)) w);
        [|injection H as <-; now right; right; left].
      destruct (rows_until_some _ _ H) as (good & bad & rest & -> & Hr & He & Hb).
      right; right; right. exists good, bad, rest. now repeat split.
    + destruct (fits (BOM ++ header_line) w); injection H as <-;
        [right; left | right; right; left]; reflexivity.
Qed.

(** C2 as stated fails: a body that is a single record, not wrapped in an
    array, deserialises, misses no key and meets no I/O error, and still the
    handler answers 500, because iterating the object yields its keys. *)
Lemma bare_record_fails :
  ~ (forall req w r,
        fst (save_config req w) = Return r ->
        (status_code r = 500%Z <->
         not_deserializable req = true
         \/ object_missing_key req = true
         \/ io_error w = true)).
Proof.
  intros H.
  destruct (H (post_json audio_volume) started_world
              (error_response (TypeError "string indices must be integers, not 'str'"))
              eq_refl) as [Hfails _].
  destruct (Hfails eq_refl) as [F|[F|F]]; vm_compute in F; discriminate F.
Qed.

(** C3, as amended.  A call that answers success has written the whole
    table, the header and a row for every item.  When the array holds
    complete records, whose text can be encoded, followed by an item on
    which the loop body raises (an object that misses panel, parameter or
    value, an item that is not an object, or a record whose text cannot be
    encoded), and the device takes what is written, the handler answers
    with the error response for that exception, and the file, truncated
    when it was opened, holds the header and the rows of exactly the
    records before that item: the prior contents are gone and the later
    items are not written. *)
Theorem failed_save_keeps_prefix
  (good : list json) (bad : json) (rest : list json) (e : exn) (w : world) :
  forallb is_record good = true ->
  encodable_fields good = true ->
  item_error bad = Some e ->
  open_error w = None ->
  fits (BOM ++ csv_table good) w = true ->
  fst (save_config (post_json (JArr (good ++ bad :: rest))) w) =
    Return (error_response e)
  /\ csv_file (snd (save_config (post_json (JArr (good ++ bad :: rest))) w)) =
     Some (BOM ++ csv_table good)
  /\ (forall req' w',
         fst (save_config req' w') = Return success_response ->
         exists data items,
           request_json req' = Return data
           /\ py_iter data = Return items
           /\ forallb is_record items = true
           /\ csv_file (snd (save_config req' w')) =
              Some (BOM ++ csv_table items)).
Proof.
  intros Hgood Henc Hbad Hopen Hfit. split; [|split].
  - rewrite save_config_returns. unfold failure, post_json, request_json, written.
    cbn [is_json body py_iter]. rewrite Hopen.
    rewrite (rows_until_prefix good (bad :: rest) Hgood Henc).
    cbn [rows_until]. rewrite Hbad. cbn [fst snd]. rewrite append_nil_r.
    fold (csv_table good). now rewrite Hfit.
  - rewrite (file_after_open (post_json (JArr (good ++ bad :: rest)))
               (JArr (good ++ bad :: rest)) w eq_refl Hopen).
    unfold written. cbn [py_iter fst].
    rewrite (rows_until_prefix good (bad :: rest) Hgood Henc).
    cbn [rows_until]. rewrite Hbad. cbn [fst]. rewrite append_nil_r.
    fold (csv_table good). unfold stored. unfold fits in Hfit.
    now rewrite (kept_fits _ _ Hfit).
  - intros req' w' Hok.
    destruct (success_inv _ _ Hok)
      as (data & items & Hreq & Ho & Hiter & Hrec & Hrows & Hf).
    exists data, items. repeat split; try assumption.
    rewrite (save_success _ _ _ _ Hreq Ho Hiter Hrows Hf).
    apply csv_file_closed.
Qed.

Lemma failed_save_keeps_prefix_witness :
  fst (save_config
         (post_json (JArr ([audio_volume]
                             ++ audio_bass_incomplete
                             :: [audio_volume])))
         (world_holding "old")) =
    Return (error_response (KeyError "value"))
  /\ csv_file (snd (save_config
         (post_json (JArr ([audio_volume]
                             ++ audio_bass_incomplete
                             :: [audio_volume])))
         (world_holding "old"))) =
     Some (BOM ++ csv_table [audio_volume]).
Proof.
  pose proof (failed_save_keeps_prefix
                [audio_volume] audio_bass_incomplete
                [audio_volume] (KeyError "value") (world_holding "old")
                eq_refl eq_refl eq_refl eq_refl eq_refl) as H.
  split; [exact (proj1 H) | exact (proj1 (proj2 H))].
Defined.

(** C3 as stated fails: for an array of two objects the second of which
    misses the value key, the handler answers with an error and the file
    holds the header and the first row only, in place of the prior
    contents. *)
Lemma partial_table_left :
  fst (save_config (post_json (JArr [audio_volume; audio_bass_incomplete]))
         (world_holding "old")) =
    Return (error_response (KeyError "value"))
  /\ csv_file (world_holding "old") = Some "old"
  /\ csv_file (snd (save_config
                      (post_json (JArr [audio_volume; audio_bass_incomplete]))
                      (world_holding "old"))) =
     Some (BOM ++ "Panel,Parameter,Value" ++ lineterminator
               ++ "Audio,Volume,80" ++ lineterminator).
Proof.
  repeat split.
Qed.

(** C4.  When two saves in sequence both succeed, the file after the second
    is the file a single save of the second request produces: the header
    and the rows of the second array only. *)
Theorem second_save_replaces (req1 req2 : request) (w : world) :
  fst (save_config req1 w) = Return success_response ->
  fst (save_config req2 (snd (save_config req1 w))) = Return success_response ->
  csv_file (snd (save_config req2 (snd (save_config req1 w)))) =
    csv_file (snd (save_config req2 w))
  /\ exists data items,
       request_json req2 = Return data
       /\ py_iter data = Return items
       /\ csv_file (snd (save_config req2 (snd (save_config req1 w)))) =
          Some (BOM ++ csv_table items).
Proof.
  intros H1 H2.
  destruct (success_inv _ _ H1) as (d1 & items1 & _ & Hopen & _).
  destruct (success_inv _ _ H2)
    as (d2 & items & Hreq2 & Hopen' & Hiter2 & Hrec2 & Hrows2 & Hfit').
  assert (Hfit : fits (BOM ++ csv_table items) w = true).
  { unfold fits in *. now rewrite capacity_after in Hfit'. }
  rewrite (save_success _ _ _ _ Hreq2 Hopen' Hiter2 Hrows2 Hfit').
  rewrite (save_success _ _ _ _ Hreq2 Hopen Hiter2 Hrows2 Hfit).
  unfold succeeded. cbn [snd].
  assert (Hfile : forall w0, csv_file (logged ("Successfully saved to " ++ SAVE_PATH)
                                        (closed_with (BOM ++ csv_table items) w0)) =
                             Some (BOM ++ csv_table items))
    by (intros w0; apply (csv_file_closed _ w0)).
  rewrite !Hfile. split; [reflexivity|]. exists d2, items.
  split; [exact Hreq2|]. split; [exact Hiter2 | reflexivity].
Qed.

Lemma second_save_replaces_witness :
  csv_file (snd (save_config (post_json (JArr []))
                   (snd (save_config (post_json (JArr [audio_volume])) started_world)))) =
  csv_file (snd (save_config (post_json (JArr [])) started_world)).
Proof.
  exact (proj1 (second_save_replaces (post_json (JArr [audio_volume]))
                  (post_json (JArr [])) started_world eq_refl eq_refl)).
Defined.

(** C6, as amended.  Over every sequence of calls of the handler,
    successful or failed, on a device that does not run out of room: if
    the file is absent or holds the header row followed by data rows when
    the sequence starts, then after the sequence the file is absent or
    holds, after the byte-order mark, the header row followed by data rows
    of three fields.  Its first line is Panel,Parameter,Value, and, when no
    field is longer than the limit of the reader, it reads back as the
    record Panel, Parameter, Value followed by the records of those
    rows. *)
Theorem header_first_invariant (reqs : list request) (w : world) :
  capacity w = None ->
  header_first w ->
  header_first (serve reqs w)
  /\ forall bytes,
       csv_file (serve reqs w) = Some bytes ->
       exists rows,
         Forall (fun row => length row = 3%nat) rows
         /\ bytes = table_bytes rows
         /\ (exists rest, file_lines bytes = "Panel,Parameter,Value" :: rest)
         /\ (forallb row_within_limit rows = true ->
             read_csv bytes =
             Return (["Panel"; "Parameter"; "Value"]
                       :: map (map field_text) rows)).
Proof.
  intros Hcap Hw.
  assert (Hinv : header_first (serve reqs w)).
  2:{ split; [exact Hinv|]. intros bytes Hfile. unfold header_first in Hinv.
      rewrite Hfile in Hinv. destruct Hinv as (rows & Hlen & ->).
      exists rows. split; [exact Hlen|]. split; [reflexivity|].
      split; [apply table_first_line|].
      intros Hlim.
      exact (read_csv_rows ([JStr "Panel"; JStr "Parameter"; JStr "Value"] :: rows)
               (proj2 (andb_true_iff _ _) (conj eq_refl Hlim))). }
  revert w Hcap Hw. induction reqs as [|req reqs IH]; intros w Hcap Hw; [exact Hw|].
  cbn [serve]. apply IH; [now rewrite capacity_after|].
  rewrite save_config_eq. unfold save_config_run.
  assert (Hlog : forall line w', header_first w' -> header_first (logged line w'))
    by (intros line w' H; exact H).
  assert (Hwritten : forall data,
             header_first (closed_with (BOM ++ fst (written data)) w)).
  { intros data. unfold header_first. rewrite csv_file_closed. unfold written.
    destruct (py_iter data) as [items|e]; cbn [fst].
    - destruct (rows_until_rows items) as (rows & Hlen & Hrows).
      exists rows. split; [exact Hlen|]. unfold table_bytes. now rewrite Hrows.
    - exists []. split; [constructor|]. unfold table_bytes. cbn [map concat_all].
      now rewrite append_nil_r. }
  assert (Hfit : forall bytes, fits bytes w = true)
    by (intros bytes; unfold fits; now rewrite Hcap).
  destruct (request_json req) as [data|e]; [|now apply Hlog].
  destruct (open_error w); [now apply Hlog|].
  rewrite Hfit. destruct (snd (written data)); apply Hlog, Hwritten.
Qed.

Lemma header_first_invariant_witness :
  header_first started_world
  /\ header_first
       (serve [post_json (JArr [audio_volume]);
               mkRequest true (Undecodable "Expecting value: line 1 column 1 (char 0)");
               post_json (JArr [audio_surrogate]);
               post_json (JInt 5)]
              started_world).
Proof.
  split; [exact I|].
  exact (proj1 (header_first_invariant
                  [post_json (JArr [audio_volume]);
                   mkRequest true (Undecodable "Expecting value: line 1 column 1 (char 0)");
                   post_json (JArr [audio_surrogate]);
                   post_json (JInt 5)]
                  started_world eq_refl I)).
Defined.

(** C6 as stated fails: on a device that is full the file is opened, which
    empties it, and the write of the header fails; the handler answers with
    the error of the device and leaves a file that exists and holds no
    header. *)
Lemma full_device_cuts_header :
  header_first (cramped_world 0)
  /\ fst (save_config (post_json (JArr [audio_volume])) (cramped_world 0)) =
     Return (error_response (OSError 28 "No space left on device"))
  /\ csv_file (serve [post_json (JArr [audio_volume])] (cramped_world 0)) =
     Some EmptyString
  /\ file_lines EmptyString = []
  /\ ~ header_first (serve [post_json (JArr [audio_volume])] (cramped_world 0)).
Proof.
  split; [exact I|]. split; [reflexivity|]. split; [reflexivity|].
  split; [reflexivity|].
  unfold header_first.
  change (csv_file (serve [post_json (JArr [audio_volume])] (cramped_world 0)))
    with (Some EmptyString).
  intros (rows & _ & F). discriminate F.
Qed.




(** C9, as amended.  For one request handled in two worlds in which [open]
    behaves alike and the device has the same room, the responses are
    identical.  When the body deserialises and the file can be opened, the
    files afterwards are identical too, whatever they held before; when
    the body does not deserialise or the file cannot be opened, the
    handler does not touch the file, which stays as the earlier requests
    left it. *)
Theorem outcome_depends_on_body (req : request) (w1 w2 : world) :
  open_error w1 = open_error w2 ->
  capacity w1 = capacity w2 ->
  fst (save_config req w1) = fst (save_config req w2)
  /\ (not_deserializable req = false ->
      io_error w1 = false ->
      csv_file (snd (save_config req w1)) = csv_file (snd (save_config req w2)))
  /\ (not_deserializable req = true \/ io_error w1 = true ->
      csv_file (snd (save_config req w1)) = csv_file w1
      /\ csv_file (snd (save_config req w2)) = csv_file w2).
Proof.
  intros Hopen Hcap. split; [|split].
  - rewrite !save_config_returns. unfold failure, fits.
    now rewrite Hopen, Hcap.
  - unfold not_deserializable, io_error. intros Hreq Hio.
    destruct (request_json req) as [data|] eqn:R; [|discriminate].
    assert (O1 : open_error w1 = None)
      by (destruct (open_error w1); [discriminate Hio | reflexivity]).
    assert (O2 : open_error w2 = None) by congruence.
    rewrite (file_after_open _ _ _ R O1), (file_after_open _ _ _ R O2).
    unfold stored. now rewrite Hcap.
  - intros H. split; apply file_untouched; [exact H|].
    unfold io_error in *. now rewrite <- Hopen.
Qed.

Lemma outcome_depends_on_body_witness :
  open_error (world_holding "first") = open_error (world_holding "second")
  /\ fst (save_config (post_json (JArr [audio_volume])) (world_holding "first")) =
     fst (save_config (post_json (JArr [audio_volume])) (world_holding "second")).
Proof.
  split; [reflexivity|].
  exact (proj1 (outcome_depends_on_body (post_json (JArr [audio_volume]))
                  (world_holding "first") (world_holding "second")
                  eq_refl eq_refl)).
Defined.

(** C9 as stated fails: a body that does not parse leaves the file as it
    was, so the same request, with the file equally writable, ends with
    different file contents after different earlier saves. *)
Lemma file_depends_on_history :
  ~ (forall req w1 w2,
        open_error w1 = open_error w2 ->
        fst (save_config req w1) = fst (save_config req w2)
        /\ csv_file (snd (save_config req w1)) = csv_file (snd (save_config req w2))).
Proof.
  intros H.
  destruct (H (mkRequest true (Undecodable "Expecting value: line 1 column 1 (char 0)"))
              (snd (save_config (post_json (JArr [])) started_world))
              (snd (save_config (post_json (JArr [audio_volume])) started_world))
              eq_refl) as [_ F].
  vm_compute in F. discriminate F.
Qed.

(** C10, as amended.  For every array of records whose texts can be
    encoded as UTF-8 and are not longer than the field limit of the
    reader, saved where the file can be opened and the device takes the
    table, the file reads back, with a CSV reader of the same dialect, as
    the header followed by one record for each object, in the order of the
    array, each field being the text of the submitted value: a string
    itself, the empty text for null, True or False for a boolean, the
    decimal numeral for an integer.  This holds also when fields hold
    commas, double quotes or line breaks, because the writer puts such a
    field, and no other, in quotes and doubles its quotes. *)
Theorem csv_round_trip (items : list json) (w : world) :
  forallb is_record items = true ->
  encodable_fields items = true ->
  within_limit items = true ->
  open_error w = None ->
  fits (BOM ++ csv_table items) w = true ->
  (exists bytes,
      csv_file (snd (save_config (post_json (JArr items)) w)) = Some bytes
      /\ read_csv bytes =
         Return (["Panel"; "Parameter"; "Value"]
                   :: map (fun item => map field_text (row_of item)) items))
  /\ length (["Panel"; "Parameter"; "Value"]
               :: map (fun item => map field_text (row_of item)) items)
     = S (length items)
  /\ (forall f,
         join_append f =
         if any special f then String DQUOTE (double_quotes f ++ char DQUOTE)
         else f)
  /\ (forall c,
         special c = true <-> c = COMMA \/ c = DQUOTE \/ c = CR \/ c = LF)
  /\ (forall s, field_text (JStr s) = s)
  /\ field_text JNull = EmptyString
  /\ field_text (JBool true) = "True"
  /\ field_text (JBool false) = "False"
  /\ (forall n,
         option_map Z.of_int (NilZero.int_of_string (field_text (JInt n))) = Some n).
Proof.
  intros Hrec Henc Hlim Hopen Hfit.
  split; [|split; [|split; [|split; [|split; [|split; [|split; [|split]]]]]]];
    try reflexivity.
  - rewrite (save_records _ _ Hrec Henc Hopen Hfit). exists (BOM ++ csv_table items).
    split; [apply csv_file_closed|]. now apply read_csv_table.
  - cbn [length]. now rewrite length_map.
  - intros c. unfold special, lineterminator, char. cbn [any].
    rewrite orb_false_r, !orb_true_iff, !Ascii.eqb_eq. tauto.
  - intros n. exact (str_int_parses n).
Qed.

Lemma csv_round_trip_witness :
  read_csv
    (BOM ++ csv_table
       [record (JStr ("a,b" ++ lineterminator ++ String DQUOTE "c"))
               JNull (JBool true)]) =
  Return [["Panel"; "Parameter"; "Value"];
          ["a,b" ++ lineterminator ++ String DQUOTE "c"; EmptyString; "True"]].
Proof.
  destruct (proj1 (csv_round_trip
                     [record (JStr ("a,b" ++ lineterminator ++ String DQUOTE "c"))
                             JNull (JBool true)]
                     started_world eq_refl eq_refl eq_refl eq_refl eq_refl))
    as (bytes & Hfile & Hread).
  injection Hfile as <-. exact Hread.
Defined.

(** C10 as stated fails: a record whose value holds a lone surrogate, which
    a JSON body can carry, cannot be encoded; its row is never written and
    the file reads back as the header alone. *)
Lemma surrogate_not_written :
  ~ (forall items w,
        forallb is_record items = true ->
        open_error w = None ->
        exists bytes,
          csv_file (snd (save_config (post_json (JArr items)) w)) = Some bytes
          /\ read_csv bytes =
             Return (["Panel"; "Parameter"; "Value"]
                       :: map (fun item => map field_text (row_of item)) items)).
Proof.
  intros H.
  destruct (H [audio_surrogate] started_world eq_refl eq_refl)
    as (bytes & Hfile & Hread).
  vm_compute in Hfile. injection Hfile as <-.
  vm_compute in Hread. discriminate Hread.
Qed.

(** * Further properties of the script *)

(** ** What a call leaves alone *)

(** X1.  The handler never raises: every call returns a response, the
    exception of a failed save being caught.  It leaves no stream open: if
    none was open before the call, none is open after it, whether the save
    succeeded or failed in the middle of the table. *)
Theorem handler_returns_and_closes (req : request) (w : world) :
  stream w = None ->
  (exists r, fst (save_config req w) = Return r)
  /\ stream (snd (save_config req w)) = None.
Proof.
  intros Hs. split; [rewrite save_config_returns; eexists; reflexivity|].
  rewrite save_config_eq. unfold save_config_run.
  destruct (request_json req) as [data|e]; [|exact Hs].
  destruct (open_error w); [exact Hs|].
  destruct (fits (BOM ++ fst (written data)) w);
    [destruct (snd (written data))|]; reflexivity.
Qed.

Lemma handler_returns_and_closes_witness :
  stream (snd (save_config (post_json (JArr [audio_volume; audio_bass_incomplete]))
                           (world_holding "old"))) = None.
Proof.
  exact (proj2 (handler_returns_and_closes
                  (post_json (JArr [audio_volume; audio_bass_incomplete]))
                  (world_holding "old") eq_refl)).
Defined.

(** X2.  Every call prints exactly one line.  After a successful save it is
    Successfully saved to and the destination path, and the answer has
    status 200; after a failed one it is Error: and the very message the
    answer carries, and the answer has status 500. *)
Theorem one_diagnostic_line (req : request) (w : world) :
  exists line r,
    fst (save_config req w) = Return r
    /\ stdout (snd (save_config req w)) = (stdout w ++ [line])%list
    /\ ((status_code r = 200%Z
         /\ line = "Successfully saved to SwapDatas/InputDatas.csv")
        \/ (exists msg,
               status_code r = 500%Z
               /\ resp_json r = JObj [("status", JStr "error"); ("message", JStr msg)]
               /\ line = "Error: " ++ msg)).
Proof.
  rewrite save_config_eq. unfold save_config_run.
  assert (Hf : forall e w',
             stdout w' = stdout w ->
             exists line r,
               fst (failed e w') = Return r
               /\ stdout (snd (failed e w')) = (stdout w ++ [line])%list
               /\ ((status_code r = 200%Z
                    /\ line = "Successfully saved to SwapDatas/InputDatas.csv")
                   \/ (exists msg,
                          status_code r = 500%Z
                          /\ resp_json r =
                             JObj [("status", JStr "error"); ("message", JStr msg)]
                          /\ line = "Error: " ++ msg))).
  { intros e w' Hw'. exists ("Error: " ++ str_exn e), (error_response e).
    split; [reflexivity|]. split; [cbn; now rewrite Hw'|].
    right. exists (str_exn e). repeat split. }
  destruct (request_json req) as [data|e]; [|now apply Hf].
  destruct (open_error w); [now apply Hf|].
  destruct (fits (BOM ++ fst (written data)) w); [|now apply Hf].
  destruct (snd (written data)); [now apply Hf|].
  exists "Successfully saved to SwapDatas/InputDatas.csv", success_response.
  split; [reflexivity|]. split; [reflexivity|]. left. split; reflexivity.
Qed.

(** X3.  What the handler never does: it never creates the folder and never
    removes it, it never deletes the file (a file that exists before a call
    exists after it), and it changes no permission. *)
Theorem handler_leaves_folder (req : request) (w : world) :
  (disk (snd (save_config req w)) = NoFolder <-> disk w = NoFolder)
  /\ (csv_file w <> None -> csv_file (snd (save_config req w)) <> None)
  /\ may_write (snd (save_config req w)) = may_write w
  /\ may_mkdir (snd (save_config req w)) = may_mkdir w.
Proof.
  split; [now rewrite disk_after|]. split; [|split; [apply may_write_after|]].
  - rewrite save_config_eq. unfold save_config_run.
    destruct (request_json req) as [data|e]; [|trivial].
    destruct (open_error w); [trivial|]. intros _.
    destruct (fits (BOM ++ fst (written data)) w);
      [destruct (snd (written data))|];
      unfold succeeded, failed; cbn [snd];
      change (csv_file (logged ?l ?w0)) with (csv_file w0);
      rewrite csv_file_closed; discriminate.
  - rewrite save_config_eq. unfold save_config_run.
    destruct (request_json req) as [data|e]; [|reflexivity].
    destruct (open_error w); [reflexivity|].
    destruct (fits (BOM ++ fst (written data)) w);
      [destruct (snd (written data))|]; reflexivity.
Qed.

(** ** Bodies that are not arrays of records *)

(** A save whose iteration raises, or whose first item fails: the header
    alone is written. *)
Lemma save_header_only (data : json) (e : exn) (w : world) :
  open_error w = None ->
  fits (BOM ++ header_line) w = true ->
  written data = (header_line, Some e) ->
  save_config (post_json data) w =
  failed e (closed_with (BOM ++ header_line) w).
Proof.
  intros Hopen Hfit Hw. rewrite save_config_eq.
  unfold save_config_run, post_json, request_json. cbn [is_json body].
  rewrite Hopen, Hw. cbn [fst snd]. now rewrite Hfit.
Qed.

(** X4.  A body that deserialises to a value Python cannot iterate, that is
    null, a boolean or a number, is answered with the error response of the
    TypeError that names its type; by then the file has been opened and the
    header written, so the file holds the header alone, whatever it held
    before. *)
Theorem scalar_body_leaves_header (data : json) (e : exn) (w : world) :
  py_iter data = Raise e ->
  open_error w = None ->
  fits (BOM ++ "Panel,Parameter,Value" ++ lineterminator) w = true ->
  e = TypeError ("'" ++ type_name data ++ "' object is not iterable")
  /\ fst (save_config (post_json data) w) = Return (error_response e)
  /\ csv_file (snd (save_config (post_json data) w)) =
     Some (BOM ++ "Panel,Parameter,Value" ++ lineterminator).
Proof.
  intros Hiter Hopen Hfit. split.
  - destruct data; cbn in Hiter; try discriminate Hiter;
      injection Hiter as <-; reflexivity.
  - rewrite (save_header_only data e w Hopen Hfit);
      [split; [reflexivity | apply (csv_file_closed _ w)]|].
    unfold written. now rewrite Hiter.
Qed.

Lemma scalar_body_leaves_header_witness :
  csv_file (snd (save_config (post_json JNull)
                   (snd (save_config (post_json (JArr [audio_volume])) started_world)))) =
  Some (BOM ++ "Panel,Parameter,Value" ++ lineterminator).
Proof.
  exact (proj2 (proj2 (scalar_body_leaves_header
                         JNull (TypeError "'NoneType' object is not iterable")
                         (snd (save_config (post_json (JArr [audio_volume])) started_world))
                         eq_refl eq_refl eq_refl))).
Defined.

Lemma py_chars_nonempty (c : ascii) (s : string) : py_chars (String c s) <> [].
Proof.
  cbn [py_chars]. destruct (py_chars s); [discriminate|].
  destruct (starts_with_continuation s); discriminate.
Qed.

(** X5.  A body that is an object or a text, not an array: the loop runs
    over the keys of the object or the characters of the text, and
    subscripting such a string with a key raises.  So the save succeeds
    only when the object or the text is empty, and otherwise is answered
    with the TypeError for string indices; either way the file holds the
    header alone. *)
Theorem object_or_text_body (data : json) (w : world) :
  is_object data = true \/ is_text data = true ->
  open_error w = None ->
  fits (BOM ++ "Panel,Parameter,Value" ++ lineterminator) w = true ->
  fst (save_config (post_json data) w) =
    Return (if is_empty data then success_response
            else error_response
                   (TypeError "string indices must be integers, not 'str'"))
  /\ csv_file (snd (save_config (post_json data) w)) =
     Some (BOM ++ "Panel,Parameter,Value" ++ lineterminator).
Proof.
  intros Hkind Hopen Hfit.
  change (fits (BOM ++ header_line) w = true) in Hfit.
  assert (Hfail : forall item rest,
             py_iter data = Return (item :: rest) ->
             is_text item = true ->
             save_config (post_json data) w =
             failed (TypeError "string indices must be integers, not 'str'")
                    (closed_with (BOM ++ header_line) w)).
  { intros item rest Hiter Hitem. apply (save_header_only _ _ _ Hopen Hfit).
    unfold written. rewrite Hiter. destruct item; try discriminate Hitem.
    reflexivity. }
  assert (Hnone : py_iter data = Return [] ->
                  save_config (post_json data) w =
                  succeeded (closed_with (BOM ++ header_line) w)).
  { intros Hiter. rewrite save_config_eq.
    unfold save_config_run, post_json, request_json, written.
    cbn [is_json body]. rewrite Hopen, Hiter. cbn [rows_until fst snd].
    rewrite append_nil_r. now rewrite Hfit. }
  destruct data as [| | | |s|l|kv]; cbn in Hkind;
    try (destruct Hkind as [F|F]; discriminate F).
  - destruct s as [|c s].
    + rewrite Hnone by reflexivity. split; [reflexivity | apply (csv_file_closed _ w)].
    + cbn [is_empty].
      destruct (py_chars (String c s)) as [|x l] eqn:Hch;
        [now elim (py_chars_nonempty c s)|].
      rewrite (Hfail (JStr x) (map JStr l));
        [split; [reflexivity | apply (csv_file_closed _ w)]
        | cbn [py_iter]; now rewrite Hch | reflexivity].
  - destruct kv as [|[k v] kv].
    + rewrite Hnone by reflexivity. split; [reflexivity | apply (csv_file_closed _ w)].
    + cbn [is_empty].
      rewrite (Hfail (JStr k) (map (fun m => JStr (fst m)) kv));
        [split; [reflexivity | apply (csv_file_closed _ w)]
        | reflexivity | reflexivity].
Qed.

Lemma object_or_text_body_witness :
  fst (save_config (post_json audio_volume) started_world) =
  Return (error_response (TypeError "string indices must be integers, not 'str'")).
Proof.
  exact (proj1 (object_or_text_body audio_volume started_world
                  (or_introl eq_refl) eq_refl eq_refl)).
Defined.

(** ** Which keys the loop reads *)

Lemma first_missing_fields (kv : list (string * json)) (key : string) :
  first_missing kv = Some key ->
  item_fields (JObj kv) = Raise (KeyError key)
  /\ str_exn (KeyError key) = "'" ++ key ++ "'".
Proof.
  unfold first_missing, item_fields, getitem. cbn [find].
  destruct (lookup "panel" kv).
  - destruct (lookup "parameter" kv).
    + destruct (lookup "value" kv); [discriminate|].
      intros H. injection H as <-. split; reflexivity.
    + intros H. injection H as <-. split; reflexivity.
  - intros H. injection H as <-. split; reflexivity.
Qed.

(** A save that fails at an item after complete records. *)
Lemma save_fails_at
  (good : list json) (bad : json) (rest : list json) (e : exn) (w : world) :
  forallb is_record good = true ->
  encodable_fields good = true ->
  item_error bad = Some e ->
  open_error w = None ->
  fits (BOM ++ csv_table good) w = true ->
  save_config (post_json (JArr (good ++ bad :: rest))) w =
  failed e (closed_with (BOM ++ csv_table good) w).
Proof.
  intros Hgood Henc Hbad Hopen Hfit. rewrite save_config_eq.
  unfold save_config_run, post_json, request_json, written.
  cbn [is_json body py_iter]. rewrite Hopen.
  rewrite (rows_until_prefix good (bad :: rest) Hgood Henc).
  cbn [rows_until]. rewrite Hbad. cbn [fst snd]. rewrite append_nil_r.
  fold (csv_table good). now rewrite Hfit.
Qed.

(** X6.  When the first item of the array that is not a complete record is
    an object, and the records before it could be written, the answer
    names one key: the first that the object lacks in the order panel,
    parameter, value, whatever else it lacks.  The message of the error
    response is that key in single quotes. *)
Theorem first_missing_key_reported
  (good : list json) (kv : list (string * json)) (rest : list json)
  (key : string) (w : world) :
  forallb is_record good = true ->
  encodable_fields good = true ->
  first_missing kv = Some key ->
  open_error w = None ->
  fits (BOM ++ csv_table good) w = true ->
  fst (save_config (post_json (JArr (good ++ JObj kv :: rest))) w) =
    Return (mkResponse
              (JObj [("status", JStr "error");
                     ("message", JStr ("'" ++ key ++ "'"))])
              500).
Proof.
  intros Hgood Henc Hmiss Hopen Hfit.
  destruct (first_missing_fields kv key Hmiss) as [Hfields Hstr].
  rewrite (save_fails_at good (JObj kv) rest (KeyError key) w Hgood Henc);
    [|unfold item_error; now rewrite Hfields | exact Hopen | exact Hfit].
  unfold failed, error_response, jsonify. cbn [fst]. now rewrite Hstr.
Qed.

Lemma first_missing_key_reported_witness :
  fst (save_config
         (post_json (JArr ([audio_volume] ++ JObj [("value", JInt 3)] :: [])))
         started_world) =
    Return (mkResponse
              (JObj [("status", JStr "error");
                     ("message", JStr ("'" ++ "panel" ++ "'"))])
              500).
Proof.
  exact (first_missing_key_reported [audio_volume] [("value", JInt 3)] []
           "panel" started_world eq_refl eq_refl eq_refl eq_refl eq_refl).
Defined.

(** Two arrays that differ in one item with the same three subscriptions
    are saved alike. *)
Lemma save_same_fields (pre post : list json) (a b : json) (w : world) :
  item_fields a = item_fields b ->
  save_config (post_json (JArr (pre ++ a :: post))) w =
  save_config (post_json (JArr (pre ++ b :: post))) w.
Proof.
  intros Hab. rewrite !save_config_eq.
  unfold save_config_run, post_json, request_json, written.
  cbn [is_json body py_iter].
  assert (H : rows_until (pre ++ a :: post) = rows_until (pre ++ b :: post)).
  { induction pre as [|x pre IH]; cbn [app rows_until].
    - unfold item_error, row_of. now rewrite Hab.
    - now rewrite IH. }
  now rewrite H.
Qed.

Lemma lookup_other (key k : string) (v : json) (kv : list (string * json)) :
  k <> key -> lookup key ((k, v) :: kv) = lookup key kv.
Proof.
  intros H. cbn [lookup]. destruct (String.eqb k key) eqn:E; [|reflexivity].
  apply String.eqb_eq in E. now elim H.
Qed.

(** X7.  The loop reads the keys panel, parameter and value and no other:
    a further member of an object, under any other key and with any value,
    at any place of the array, changes neither the answer nor the file nor
    what is printed. *)
Theorem other_keys_ignored
  (pre post : list json) (kv : list (string * json)) (k : string) (v : json)
  (w : world) :
  k <> "panel" -> k <> "parameter" -> k <> "value" ->
  save_config (post_json (JArr (pre ++ JObj ((k, v) :: kv) :: post))) w =
  save_config (post_json (JArr (pre ++ JObj kv :: post))) w.
Proof.
  intros H1 H2 H3. apply save_same_fields.
  unfold item_fields, getitem. now rewrite !lookup_other.
Qed.

Lemma other_keys_ignored_witness :
  save_config
    (post_json (JArr ([] ++ JObj (("unit", JStr "dB")
                                    :: [("panel", JStr "Audio");
                                        ("parameter", JStr "Volume");
                                        ("value", JInt 80)]) :: [])))
    started_world =
  save_config
    (post_json (JArr ([] ++ JObj [("panel", JStr "Audio");
                                  ("parameter", JStr "Volume");
                                  ("value", JInt 80)] :: [])))
    started_world.
Proof.
  apply (other_keys_ignored [] [] _ "unit" (JStr "dB") started_world);
    discriminate.
Defined.

Lemma lookup_in (key : string) (kv : list (string * json)) :
  NoDup (map fst kv) ->
  forall v, lookup key kv = Some v <-> In (key, v) kv.
Proof.
  induction kv as [|[k x] kv IH]; intros Hnd v.
  - split; [discriminate | intros []].
  - cbn [map fst] in Hnd. apply NoDup_cons_iff in Hnd as [Hk Hnd].
    cbn [lookup In]. destruct (String.eqb k key) eqn:E.
    + apply String.eqb_eq in E. subst k. split.
      * intros H. injection H as ->. now left.
      * intros [H|H]; [now injection H as -> |].
        elim Hk. apply in_map_iff. now exists (key, v).
    + apply String.eqb_neq in E. rewrite (IH Hnd). split.
      * intros H. now right.
      * intros [H|H]; [injection H as -> _; now elim E | exact H].
Qed.

Lemma lookup_permutation (key : string) (kv kv' : list (string * json)) :
  NoDup (map fst kv) -> Permutation kv kv' -> lookup key kv = lookup key kv'.
Proof.
  intros Hnd Hperm.
  assert (Hnd' : NoDup (map fst kv'))
    by (eapply Permutation_NoDup; [apply Permutation_map, Hperm | exact Hnd]).
  destruct (lookup key kv) as [v|] eqn:E.
  - symmetry. apply (lookup_in key kv' Hnd').
    apply (Permutation_in _ Hperm). now apply (lookup_in key kv Hnd).
  - destruct (lookup key kv') as [v|] eqn:E'; [|reflexivity].
    apply (lookup_in key kv' Hnd') in E'.
    apply (Permutation_in _ (Permutation_sym Hperm)) in E'.
    apply (lookup_in key kv Hnd) in E'. congruence.
Qed.

(** X8.  The columns of a row are panel, parameter, value in this order,
    whatever the order of the members of the submitted object: reordering
    the members of an object, whose keys are distinct, changes neither the
    answer nor the file. *)
Theorem member_order_ignored
  (pre post : list json) (kv kv' : list (string * json)) (w : world) :
  NoDup (map fst kv) ->
  Permutation kv kv' ->
  save_config (post_json (JArr (pre ++ JObj kv :: post))) w =
  save_config (post_json (JArr (pre ++ JObj kv' :: post))) w.
Proof.
  intros Hnd Hperm. apply save_same_fields.
  unfold item_fields, getitem.
  now rewrite !(lookup_permutation _ kv kv' Hnd Hperm).
Qed.

Lemma member_order_ignored_witness :
  save_config
    (post_json (JArr ([] ++ JObj [("panel", JStr "Audio"); ("value", JInt 80);
                                  ("parameter", JStr "Volume")] :: [])))
    started_world =
  save_config
    (post_json (JArr ([] ++ JObj [("value", JInt 80); ("panel", JStr "Audio");
                                  ("parameter", JStr "Volume")] :: [])))
    started_world.
Proof.
  apply (member_order_ignored [] []
           [("panel", JStr "Audio"); ("value", JInt 80); ("parameter", JStr "Volume")]
           [("value", JInt 80); ("panel", JStr "Audio"); ("parameter", JStr "Volume")]
           started_world).
  - repeat constructor; cbn; intuition discriminate.
  - apply perm_swap.
Defined.

(** ** Calls in sequence *)

(** X9.  Saving is idempotent on the file and on the answer: the same
    request handled twice in a row is answered the second time as the
    first, and leaves the file the first call left; only the printed lines
    add up. *)
Theorem save_twice_same (req : request) (w : world) :
  fst (save_config req (snd (save_config req w))) = fst (save_config req w)
  /\ csv_file (snd (save_config req (snd (save_config req w)))) =
     csv_file (snd (save_config req w)).
Proof.
  pose proof (open_error_after req w) as Hopen.
  pose proof (capacity_after req w) as Hcap.
  rewrite !save_config_returns. unfold failure, fits. rewrite Hopen, Hcap.
  split; [reflexivity|].
  destruct (request_json req) as [data|e] eqn:Hreq.
  - destruct (open_error w) as [e|] eqn:Hw.
    + apply file_untouched. right. unfold io_error. now rewrite Hopen.
    + rewrite (file_after_open _ _ _ Hreq Hopen).
      rewrite (file_after_open _ _ _ Hreq Hw). unfold stored. now rewrite Hcap.
  - apply file_untouched. left. unfold not_deserializable. now rewrite Hreq.
Qed.

(** X10.  After any history of requests, a request whose body
    deserialises, in a world where the file can be opened, leaves the file
    that the request alone would leave: nothing of the earlier requests
    remains in the file. *)
Theorem last_save_wins (reqs : list request) (req : request) (w : world) :
  not_deserializable req = false ->
  io_error w = false ->
  csv_file (serve (reqs ++ [req]) w) = csv_file (snd (save_config req w)).
Proof.
  unfold not_deserializable, io_error. intros Hreq Hio.
  destruct (request_json req) as [data|] eqn:Hd; [|discriminate Hreq].
  destruct (open_error w) eqn:Hopen; [discriminate Hio|].
  rewrite serve_app. cbn [serve].
  rewrite (file_after_open _ _ _ Hd); [|now rewrite open_error_serve].
  rewrite (file_after_open _ _ _ Hd Hopen).
  unfold stored. now rewrite capacity_serve.
Qed.

Lemma last_save_wins_witness :
  csv_file (serve ([post_json (JArr [audio_volume]); post_json JNull]
                     ++ [post_json (JArr [audio_volume; audio_bass_incomplete])])
                  started_world) =
  csv_file (snd (save_config (post_json (JArr [audio_volume; audio_bass_incomplete]))
                             started_world)).
Proof.
  exact (last_save_wins [post_json (JArr [audio_volume]); post_json JNull]
           (post_json (JArr [audio_volume; audio_bass_incomplete]))
           started_world eq_refl eq_refl).
Defined.

(** ** Running the script *)

(** The server handles the requests one after the other and no exception
    of a handler reaches it. *)
Lemma app_run_serve (reqs : list request) :
  forall w, app_run reqs w = (Return tt, serve reqs w).
Proof.
  unfold app_run.
  induction reqs as [|req reqs IH]; intros w; [reflexivity|].
  cbn [for_each serve]. unfold bind at 1. unfold bind at 1.
  pose proof (save_config_returns req w) as Hr.
  destruct (save_config req w) as [o w1]. cbn [fst snd] in *. subst o.
  unfold ret. apply IH.
Qed.

(** X11.  Running the script.  The statements at module level never alter
    a saved file, open no stream and print nothing: they succeed, or, when
    nothing is at the path of the folder and it may not be created, raise
    the PermissionError of [os.makedirs], or, when a symbolic link to
    nothing is at that path, its FileExistsError, and then leave the world
    as it was and the script ends there.  When they succeed, the main
    block prints the four lines of the banner and then the server handles
    the requests in the order they come. *)
Theorem load_keeps_file (w : world) :
  csv_file (snd (module_init w)) = csv_file w
  /\ stream (snd (module_init w)) = stream w
  /\ stdout (snd (module_init w)) = stdout w
  /\ (fst (module_init w) = Return tt
      \/ (fst (module_init w) = Raise (PermissionError "SwapDatas")
          /\ snd (module_init w) = w
          /\ disk w = NoFolder
          /\ may_mkdir w = false)
      \/ (fst (module_init w) = Raise (FileExistsError "SwapDatas")
          /\ snd (module_init w) = w
          /\ disk w = DanglingLink))
  /\ (forall reqs e,
         fst (module_init w) = Raise e -> script reqs w = (Raise e, w))
  /\ (forall reqs,
         fst (module_init w) = Return tt ->
         script reqs w =
           (Return tt, serve reqs (announced (snd (module_init w))))
         /\ stdout (announced (snd (module_init w))) =
            (stdout w
               ++ ["------------------------------------------";
                   "仿真系统服务器已启动！";
                   "直接点击此链接进行访问: http://localhost:8080";
                   "------------------------------------------"])%list).
Proof.
  assert (Hscript : forall reqs w1,
             module_init w = (Return tt, w1) ->
             script reqs w = (Return tt, serve reqs (announced w1))).
  { intros reqs w1 Hw1. unfold script, bind. rewrite Hw1.
    unfold main_block, bind, print. apply app_run_serve. }
  assert (Hout : forall w1, stdout w1 = stdout w ->
             stdout (announced w1) = (stdout w ++ BANNER)%list).
  { intros w1 <-. unfold announced, BANNER, logged. cbn [fold_left stdout].
    now rewrite <- !app_assoc. }
  assert (Hraise : forall reqs e,
             module_init w = (Raise e, w) -> script reqs w = (Raise e, w)).
  { intros reqs e Hw. unfold script, bind. now rewrite Hw. }
  rewrite module_init_run in *.
  destruct (disk w) eqn:D.
  - destruct (may_mkdir w) eqn:Hmk; cbn [fst snd].
    + split.
      { unfold csv_file, read_file, set_fs. cbn [fs].
        rewrite entry_put_other; [reflexivity | discriminate]. }
      split; [reflexivity|]. split; [reflexivity|]. split; [now left|].
      split; [discriminate|]. intros reqs _.
      split; [now apply Hscript | now apply Hout].
    + split; [reflexivity|]. split; [reflexivity|]. split; [reflexivity|].
      split; [right; left; now repeat split|].
      split; [|discriminate].
      intros reqs e H. injection H as <-. now apply Hraise.
  - cbn [fst snd].
    split; [reflexivity|]. split; [reflexivity|]. split; [reflexivity|].
    split; [right; right; now repeat split|].
    split; [|discriminate].
    intros reqs e H. injection H as <-. now apply Hraise.
  - cbn [fst snd].
    split; [reflexivity|]. split; [reflexivity|]. split; [reflexivity|].
    split; [now left|]. split; [discriminate|]. intros reqs _.
    split; [now apply Hscript | now apply Hout].
  - cbn [fst snd].
    split; [reflexivity|]. split; [reflexivity|]. split; [reflexivity|].
    split; [now left|]. split; [discriminate|]. intros reqs _.
    split; [now apply Hscript | now apply Hout].
Qed.



(** ** What the file keeps of the submitted values *)

Lemma record_text_texts (r1 r2 : list json) :
  map field_text r1 = map field_text r2 -> record_text r1 = record_text r2.
Proof.
  intros H. unfold record_text, record_line.
  rewrite <- !(map_map field_text join_append), H.
  destruct r1, r2; try discriminate H; reflexivity.
Qed.

Lemma csv_table_texts (items1 : list json) :
  forall items2, texts items1 = texts items2 -> csv_table items1 = csv_table items2.
Proof.
  unfold csv_table, texts.
  induction items1 as [|a items1 IH]; intros [|b items2] H; try discriminate H;
    [reflexivity|].
  cbn [map] in H. injection H as Hab Hrest.
  apply IH in Hrest. apply append_inv_head in Hrest.
  cbn [map concat_all]. now rewrite (record_text_texts _ _ Hab), Hrest.
Qed.

Lemma texts_of_table (items1 items2 : list json) :
  within_limit items1 = true ->
  within_limit items2 = true ->
  csv_table items1 = csv_table items2 -> texts items1 = texts items2.
Proof.
  intros L1 L2 H.
  pose proof (read_csv_table items1 L1) as S1.
  rewrite H, (read_csv_table items2 L2) in S1.
  injection S1 as S1. now symmetry.
Qed.

(** X13.  The file keeps the texts of the submitted values and nothing
    else of them: two arrays of records whose texts can be encoded and
    are within the field limit of the reader, saved where the device takes
    them, are saved as the same file exactly when they have as many
    records and the same text in every field.  So distinct texts are never
    confused, whatever commas, quotes or line breaks they hold, while
    values of different JSON types that have the same text, such as the
    number 80 and the string 80, or null and the empty string, cannot be
    told apart in the file. *)
Theorem same_file_iff_same_texts (items1 items2 : list json) (w1 w2 : world) :
  forallb is_record items1 = true ->
  forallb is_record items2 = true ->
  encodable_fields items1 = true ->
  encodable_fields items2 = true ->
  within_limit items1 = true ->
  within_limit items2 = true ->
  open_error w1 = None ->
  open_error w2 = None ->
  fits (BOM ++ csv_table items1) w1 = true ->
  fits (BOM ++ csv_table items2) w2 = true ->
  (csv_file (snd (save_config (post_json (JArr items1)) w1)) =
   csv_file (snd (save_config (post_json (JArr items2)) w2))
   <-> texts items1 = texts items2).
Proof.
  intros Hr1 Hr2 He1 He2 Hl1 Hl2 Ho1 Ho2 Hf1 Hf2.
  rewrite (save_records _ _ Hr1 He1 Ho1 Hf1), (save_records _ _ Hr2 He2 Ho2 Hf2).
  unfold succeeded. cbn [snd].
  change (csv_file (logged ?l ?w0)) with (csv_file w0).
  rewrite !csv_file_closed.
  split.
  - intros H. apply (texts_of_table _ _ Hl1 Hl2), (append_inv_head BOM). congruence.
  - intros H. now rewrite (csv_table_texts _ _ H).
Qed.

Lemma same_file_iff_same_texts_witness :
  csv_file (snd (save_config (post_json (JArr [audio_volume])) started_world)) =
  csv_file (snd (save_config
                   (post_json (JArr [record (JStr "Audio") (JStr "Volume") (JStr "80")]))
                   (world_holding "old"))).
Proof.
  exact (proj2 (same_file_iff_same_texts
                  [audio_volume]
                  [record (JStr "Audio") (JStr "Volume") (JStr "80")]
                  started_world (world_holding "old")
                  eq_refl eq_refl eq_refl eq_refl eq_refl eq_refl
                  eq_refl eq_refl eq_refl eq_refl)
               eq_refl).
Defined.

(** X14.  An integer value is written as its decimal numeral, which holds
    no character that calls for quoting, so it stands in the file as it
    is; and the numerals of distinct integers differ, so the file tells
    any two integer values apart. *)
Theorem integer_written_plain (n : Z) :
  field_text (JInt n) = str_int n
  /\ join_append (field_text (JInt n)) = str_int n
  /\ (forall m, field_text (JInt n) = field_text (JInt m) -> n = m)
  /\ (forall panel parameter,
         any special (field_text panel) = false ->
         any special (field_text parameter) = false ->
         record_line [panel; parameter; JInt n] =
         field_text panel ++ "," ++ field_text parameter ++ "," ++ str_int n).
Proof.
  split; [reflexivity|].
  assert (J : join_append (str_int n) = str_int n)
    by (unfold join_append; now rewrite str_int_plain).
  split; [exact J|]. split; [intros m; apply str_int_inj|].
  intros panel parameter Hp Hq. unfold record_line. cbn [map String.concat].
  change (field_text (JInt n)) with (str_int n). rewrite J.
  unfold join_append. rewrite Hp, Hq.
  now destruct (field_text panel).
Qed.

(** X15.  The file a failed save leaves is still a well-formed CSV file:
    when the array holds complete records, whose texts can be encoded and
    are within the field limit of the reader, followed by an item on which
    the loop body raises, and the device takes what is written, the file
    reads back as the header followed by the texts of exactly the records
    before that item. *)
Theorem failed_save_reads_back
  (good : list json) (bad : json) (rest : list json) (e : exn) (w : world) :
  forallb is_record good = true ->
  encodable_fields good = true ->
  within_limit good = true ->
  item_error bad = Some e ->
  open_error w = None ->
  fits (BOM ++ csv_table good) w = true ->
  exists bytes,
    csv_file (snd (save_config (post_json (JArr (good ++ bad :: rest))) w)) =
      Some bytes
    /\ read_csv bytes = Return (["Panel"; "Parameter"; "Value"] :: texts good).
Proof.
  intros Hgood Henc Hlim Hbad Hopen Hfit. exists (BOM ++ csv_table good). split.
  - rewrite (save_fails_at good bad rest e w Hgood Henc Hbad Hopen Hfit).
    apply (csv_file_closed _ w).
  - now apply read_csv_table.
Qed.

Lemma failed_save_reads_back_witness :
  exists bytes,
    csv_file (snd (save_config
                     (post_json (JArr ([audio_volume] ++ audio_surrogate :: [])))
                     (world_holding "old"))) = Some bytes
    /\ read_csv bytes =
       Return (["Panel"; "Parameter"; "Value"] :: texts [audio_volume]).
Proof.
  exact (failed_save_reads_back [audio_volume] audio_surrogate []
           (UnicodeEncodeError "utf-8" 55296 13 14 "surrogates not allowed")
           (world_holding "old") eq_refl eq_refl eq_refl eq_refl eq_refl eq_refl).
Defined.

(** ** Saves that fail at a write *)

Lemma surrogate_error_shape (s : string) :
  forall pos e,
    surrogate_error pos s = Some e ->
    exists code start stop,
      e = UnicodeEncodeError "utf-8" code start stop "surrogates not allowed".
Proof.
  induction s as [|c r IH]; intros pos e; [discriminate|].
  cbn [surrogate_error]. destruct (surrogate_here (String c r)).
  - intros H. injection H as <-. now eexists _, _, _.
  - apply IH.
Qed.

(** X16.  A complete record is not enough for its row to be written: when
    a field of it holds a lone surrogate, which a JSON body can carry as
    an escape, the encoder of the stream refuses the row.  The handler
    answers with the error response of that UnicodeEncodeError and the
    file holds the header and the rows of the records before it. *)
Theorem surrogate_record_fails
  (good : list json) (bad : json) (rest : list json) (w : world) :
  forallb is_record good = true ->
  encodable_fields good = true ->
  is_record bad = true ->
  encodable_fields [bad] = false ->
  open_error w = None ->
  fits (BOM ++ csv_table good) w = true ->
  exists code start stop,
    utf_8_encode (record_text (row_of bad)) =
      Raise (UnicodeEncodeError "utf-8" code start stop "surrogates not allowed")
    /\ fst (save_config (post_json (JArr (good ++ bad :: rest))) w) =
       Return (error_response
                 (UnicodeEncodeError "utf-8" code start stop
                    "surrogates not allowed"))
    /\ csv_file (snd (save_config (post_json (JArr (good ++ bad :: rest))) w)) =
       Some (BOM ++ csv_table good).
Proof.
  intros Hgood Henc Hrec Hbad Hopen Hfit.
  assert (Hs : has_surrogate (record_text (row_of bad)) = true).
  { rewrite has_surrogate_record. unfold encodable_fields in Hbad.
    cbn [forallb] in Hbad. rewrite andb_true_r in Hbad.
    destruct (existsb _ (row_of bad)) eqn:E; [reflexivity|].
    apply existsb_false_forallb in E. congruence. }
  pose proof (surrogate_error_some _ 0%N Hs) as Hsome.
  destruct (surrogate_error 0 (record_text (row_of bad))) as [e|] eqn:He;
    [|now elim Hsome].
  destruct (surrogate_error_shape _ _ _ He) as (code & start & stop & ->).
  assert (Hraise : utf_8_encode (record_text (row_of bad)) =
                   Raise (UnicodeEncodeError "utf-8" code start stop
                            "surrogates not allowed"))
    by (unfold utf_8_encode; now rewrite He).
  exists code, start, stop. split; [exact Hraise|].
  rewrite (save_fails_at good bad rest
             (UnicodeEncodeError "utf-8" code start stop "surrogates not allowed")
             w Hgood Henc); [| |exact Hopen|exact Hfit].
  - split; [reflexivity | apply (csv_file_closed _ w)].
  - unfold item_error. destruct (is_record_fields _ Hrec) as [-> _].
    now rewrite Hraise.
Qed.

Lemma surrogate_record_fails_witness :
  fst (save_config (post_json (JArr ([audio_volume] ++ audio_surrogate :: [])))
         started_world) =
    Return (mkResponse
              (JObj [("status", JStr "error");
                     ("message",
                      JStr "'utf-8' codec can't encode character '\ud800' in position 13: surrogates not allowed")])
              500)
  /\ csv_file (snd (save_config
                      (post_json (JArr ([audio_volume] ++ audio_surrogate :: [])))
                      started_world)) =
     Some (BOM ++ csv_table [audio_volume]).
Proof.
  destruct (surrogate_record_fails [audio_volume] audio_surrogate [] started_world
              eq_refl eq_refl eq_refl eq_refl eq_refl eq_refl)
    as (code & start & stop & Henc & Hresp & Hfile).
  split; [|exact Hfile].
  rewrite Hresp. vm_compute in Henc. injection Henc as <- <- <-. reflexivity.
Defined.

(** X17.  When the device does not take all that a save writes, the file,
    emptied when it was opened, holds the bytes the device took, which may
    stop anywhere, and the handler answers with the error response of the
    OSError, [Errno 28] No space left on device, whatever else the loop
    met. *)
Theorem device_without_room (req : request) (data : json) (w : world) :
  request_json req = Return data ->
  open_error w = None ->
  fits (BOM ++ fst (written data)) w = false ->
  fst (save_config req w) =
    Return (error_response (OSError 28 "No space left on device"))
  /\ str_exn (OSError 28 "No space left on device") =
     "[Errno 28] No space left on device"
  /\ exists room,
       capacity w = Some room
       /\ room < String.length (BOM ++ fst (written data))
       /\ csv_file (snd (save_config req w)) =
          Some (take room (BOM ++ fst (written data))).
Proof.
  intros Hreq Hopen Hfit. split; [|split; [reflexivity|]].
  - rewrite save_config_returns. unfold failure. now rewrite Hreq, Hopen, Hfit.
  - rewrite (file_after_open _ _ _ Hreq Hopen). unfold fits, stored in *.
    destruct (capacity w) as [room|]; [|discriminate Hfit].
    exists room. split; [reflexivity|]. split; [|reflexivity].
    cbn [room_for] in Hfit. apply Nat.leb_gt in Hfit. exact Hfit.
Qed.

Lemma device_without_room_witness :
  fst (save_config (post_json (JArr [audio_volume])) (cramped_world 30)) =
    Return (error_response (OSError 28 "No space left on device"))
  /\ csv_file (snd (save_config (post_json (JArr [audio_volume])) (cramped_world 30))) =
     Some (BOM ++ "Panel,Parameter,Value" ++ lineterminator ++ "Audi").
Proof.
  destruct (device_without_room (post_json (JArr [audio_volume])) (JArr [audio_volume])
              (cramped_world 30) eq_refl eq_refl eq_refl)
    as (Hresp & _ & room & Hcap & _ & Hfile).
  split; [exact Hresp|]. injection Hcap as <-. exact Hfile.
Defined.

(** ** Reading back a field that is too long *)

(** X18.  The handler writes a field of any length, but the reader of the
    same module takes at most 131072 characters in a field: a table with a
    record whose panel text is longer, and needs no quotes, cannot be read
    back, the reader raising its error at that field, whatever the records
    before it and after it. *)
Theorem long_field_unreadable
  (good : list json) (panel parameter value : json) (rest : list json) :
  within_limit good = true ->
  any special (field_text panel) = false ->
  (FIELD_LIMIT < char_count (field_text panel))%N ->
  read_csv (BOM ++ csv_table (good ++ record panel parameter value :: rest)) =
  Raise (CsvError "field larger than field limit (131072)").
Proof.
  intros Hgood Hplain Hover. rewrite read_csv_scan.
  change (decode_utf8_sig
            (BOM ++ csv_table (good ++ record panel parameter value :: rest)))
    with (csv_table (good ++ record panel parameter value :: rest)).
  unfold csv_table, header_line. rewrite map_app, <- !map_map with (f := row_of).
  assert (E : forall l1 l2 : list string,
             concat_all (l1 ++ l2) = concat_all l1 ++ concat_all l2).
  { induction l1 as [|x l1 IH]; intros l2; [reflexivity|].
    cbn [app concat_all]. now rewrite IH, append_assoc. }
  rewrite E.
  change (concat_all
            (map record_text (map row_of (record panel parameter value :: rest))))
    with (record_text [panel; parameter; value]
            ++ concat_all (map record_text (map row_of rest))).
  rewrite <- append_assoc.
  change (record_text [JStr "Panel"; JStr "Parameter"; JStr "Value"]
            ++ concat_all (map record_text (map row_of good)))
    with (concat_all
            (map record_text
               ([JStr "Panel"; JStr "Parameter"; JStr "Value"] :: map row_of good))).
  set (tail := concat_all (map record_text (map row_of rest))).
  rewrite scan_rows_then.
  2:{ cbn [forallb]. apply andb_true_iff. split; [reflexivity|].
      unfold within_limit in Hgood. clear - Hgood.
      induction good as [|g good IH]; [reflexivity|].
      cbn [forallb map] in *. apply andb_true_iff in Hgood as [-> H].
      now apply IH. }
  assert (S : exists rest',
             record_text [panel; parameter; value] ++ tail =
             field_text panel ++ rest').
  { assert (J : join_append (field_text panel) = field_text panel)
      by (unfold join_append; now rewrite Hplain).
    unfold record_text, record_line. cbn [map String.concat]. rewrite J.
    destruct (field_text panel) as [|a s]; [cbn in Hover; lia|].
    cbn [append]. eexists. rewrite !append_assoc. reflexivity. }
  destruct S as (rest' & ->).
  now rewrite (scan_start_over _ _ Hplain Hover).
Qed.

Lemma long_field_unreadable_witness :
  read_csv (BOM ++ csv_table ([audio_volume]
                                ++ record (JStr long_text) JNull JNull :: [])) =
  Raise (CsvError "field larger than field limit (131072)").
Proof.
  apply (long_field_unreadable [audio_volume] (JStr long_text) JNull JNull []);
    vm_compute; reflexivity.
Defined.
